(** * Offline RAG agent: the query-generation-and-validation pipeline

    A shallow embedding of the Python modules

      - [offline_rag_agent/utils/security.py]   (SecurityValidator, QueryValidator)
      - [offline_rag_agent/query_processor.py]  (QueryProcessor)
      - [offline_rag_agent/schema_manager.py]   (DatabaseSchemaManager)
      - [offline_rag_agent/llm_client.py]       (LocalLLMClient)
      - [offline_rag_agent/query_executor.py]   (QueryExecutor)
      - [offline_rag_agent/rag_agent.py]        (OfflineRAGAgent)

    Python [str] values are modelled as [string] over 7-bit ASCII text: the
    character predicates below ([isspace], [isalnum], [upper], ...) are the
    restrictions of Python's to code points below 128.  Exceptions are an
    explicit [result] type, calls to the outside world (generation backend,
    store, pandas) are oracles of an environment record, and the texts handed
    to those oracles are collected in an event log. *)

From stdpp Require Import base strings list gmap.
From Stdlib Require Import Ascii String DecimalString Lia.

Local Open Scope string_scope.
Local Open Scope list_scope.

(** ** Python string primitives *)

Module PyStr.

Definition ord (c : ascii) : nat := nat_of_ascii c.

Definition in_range (lo hi : nat) (c : ascii) : bool :=
  Nat.leb lo (ord c) && Nat.leb (ord c) hi.

(** [str.isspace] on one ASCII character: TAB, LF, VT, FF, CR, the four
    separators FS, GS, RS, US and the blank. *)
Definition isspace_char (c : ascii) : bool :=
  in_range 9 13 c || in_range 28 32 c.

Definition isdigit_char (c : ascii) : bool := in_range 48 57 c.
Definition isupper_char (c : ascii) : bool := in_range 65 90 c.
Definition islower_char (c : ascii) : bool := in_range 97 122 c.
Definition isalpha_char (c : ascii) : bool := isupper_char c || islower_char c.
Definition isalnum_char (c : ascii) : bool := isalpha_char c || isdigit_char c.

Definition upper_char (c : ascii) : ascii :=
  if islower_char c then ascii_of_nat (ord c - 32) else c.
Definition lower_char (c : ascii) : ascii :=
  if isupper_char c then ascii_of_nat (ord c + 32) else c.

Definition eqb_char (a b : ascii) : bool := Ascii.eqb a b.

Fixpoint map (f : ascii -> ascii) (s : string) : string :=
  match s with
  | EmptyString => EmptyString
  | String c s' => String (f c) (map f s')
  end.

Fixpoint forallb (p : ascii -> bool) (s : string) : bool :=
  match s with
  | EmptyString => true
  | String c s' => p c && forallb p s'
  end.

Fixpoint filter (p : ascii -> bool) (s : string) : string :=
  match s with
  | EmptyString => EmptyString
  | String c s' => if p c then String c (filter p s') else filter p s'
  end.

Definition is_empty (s : string) : bool :=
  match s with EmptyString => true | _ => false end.

(** [s.upper()], [s.lower()] *)
Definition upper (s : string) : string := map upper_char s.
Definition lower (s : string) : string := map lower_char s.

(** [s.isalnum()], [s.isdigit()]: false on the empty string. *)
Definition isalnum (s : string) : bool := negb (is_empty s) && forallb isalnum_char s.
Definition isdigit (s : string) : bool := negb (is_empty s) && forallb isdigit_char s.

(** [s.lstrip(chars)], [s.rstrip(chars)] for a character predicate. *)
Fixpoint lstrip_by (p : ascii -> bool) (s : string) : string :=
  match s with
  | EmptyString => EmptyString
  | String c s' => if p c then lstrip_by p s' else s
  end.

Fixpoint rstrip_by (p : ascii -> bool) (s : string) : string :=
  match s with
  | EmptyString => EmptyString
  | String c s' =>
      let r := rstrip_by p s' in
      if is_empty r && p c then EmptyString else String c r
  end.

(** [s.strip()], [s.rstrip(';')] *)
Definition strip (s : string) : string := rstrip_by isspace_char (lstrip_by isspace_char s).
Definition rstrip_char (c : ascii) (s : string) : string := rstrip_by (eqb_char c) s.

(** [s.startswith(p)] *)
Fixpoint startswith (p s : string) : bool :=
  match p, s with
  | EmptyString, _ => true
  | String a p', String b s' => eqb_char a b && startswith p' s'
  | String _ _, EmptyString => false
  end.

(** [sub in s] *)
Fixpoint contains (sub s : string) : bool :=
  startswith sub s ||
  match s with
  | EmptyString => false
  | String _ s' => contains sub s'
  end.

(** [s.split(sep)[0]]: the text before the first occurrence of a non-empty
    [sep], the whole of [s] when there is none. *)
Fixpoint before_first (sep s : string) : string :=
  if startswith sep s then EmptyString
  else match s with
       | EmptyString => EmptyString
       | String c s' => String c (before_first sep s')
       end.

(** [s.split(c)] for a one-character separator. *)
Fixpoint split_char_aux (sep : ascii) (cur : string) (s : string) : list string :=
  match s with
  | EmptyString => [cur]
  | String c s' =>
      if eqb_char sep c then cur :: split_char_aux sep EmptyString s'
      else split_char_aux sep (cur +:+ String c EmptyString) s'
  end.
Definition split_char (sep : ascii) (s : string) : list string :=
  split_char_aux sep EmptyString s.

(** [s.replace(old, new)] for a non-empty [old]: occurrences are replaced
    left to right without overlap.  [skip] counts the characters of an
    occurrence still to be dropped. *)
Fixpoint replace_aux (old new : string) (skip : nat) (s : string) : string :=
  match s with
  | EmptyString => EmptyString
  | String c s' =>
      match skip with
      | S n => replace_aux old new n s'
      | O =>
          if startswith old s
          then new +:+ replace_aux old new (String.length old - 1) s'
          else String c (replace_aux old new 0 s')
      end
  end.
Definition replace (old new s : string) : string := replace_aux old new 0 s.

End PyStr.

(** ** Regular expressions: the fragment of Python's [re] the sources use *)

Module Re.

Inductive regex : Type :=
| Eps
| Chr (c : ascii)                  (* a literal character *)
| Dot                              (* [.] *)
| Space                            (* [\s] *)
| Class (ranges : list (ascii * ascii))   (* [[a-b...]] *)
| Seq (r1 r2 : regex)
| Alt (r1 r2 : regex)              (* [r1|r2], left alternative first *)
| Star (r : regex)                 (* greedy [r*] *)
| LazyStar (r : regex)             (* [r*?] *)
| Opt (r : regex)                  (* greedy [r?] *)
| Group (r : regex)                (* capturing group 1 *)
| Eol                              (* [$] without MULTILINE *)
| NotAhead (r : regex)             (* [(?!r)] *)
| WordB.                           (* [\b] *)

Definition Plus (r : regex) : regex := Seq r (Star r).

(** [lit "abc"] is the concatenation of its characters. *)
Fixpoint lit (s : string) : regex :=
  match s with
  | EmptyString => Eps
  | String c EmptyString => Chr c
  | String c s' => Seq (Chr c) (lit s')
  end.

Record flags := { ignorecase : bool; dotall : bool }.

(** A position in the subject: the character before it (for [\b]), the text
    from it on, and the text captured by group 1 so far. *)
Record pos := { prev : option ascii; rest : string; cap : option string }.

Definition newline : ascii := "010"%char.

Definition is_word_char (c : ascii) : bool :=
  PyStr.isalnum_char c || PyStr.eqb_char c "_"%char.

Definition word_before (p : pos) : bool :=
  match prev p with Some c => is_word_char c | None => false end.
Definition word_after (p : pos) : bool :=
  match rest p with String c _ => is_word_char c | EmptyString => false end.

(** [$] matches at the end of the subject and just before a newline that
    ends the subject. *)
Definition at_eol (s : string) : bool :=
  match s with
  | EmptyString => true
  | String c EmptyString => PyStr.eqb_char c newline
  | _ => false
  end.

Definition chr_matches (fl : flags) (c x : ascii) : bool :=
  if ignorecase fl then PyStr.eqb_char (PyStr.lower_char c) (PyStr.lower_char x)
  else PyStr.eqb_char c x.

Definition dot_matches (fl : flags) (x : ascii) : bool :=
  dotall fl || negb (PyStr.eqb_char x newline).

Definition class_matches (ranges : list (ascii * ascii)) (x : ascii) : bool :=
  existsb (fun r => PyStr.in_range (PyStr.ord (fst r)) (PyStr.ord (snd r)) x) ranges.

(** Consume one character satisfying [p]. *)
Definition step (p : ascii -> bool) (k : pos -> option pos) (c : pos) : option pos :=
  match rest c with
  | String x s' => if p x then k {| prev := Some x; rest := s'; cap := cap c |} else None
  | EmptyString => None
  end.

Definition orelse (a b : option pos) : option pos :=
  match a with Some _ => a | None => b end.

(** Repetition.  [fuel] bounds the number of iterations; an iteration that
    consumes nothing is cut, as the backtracking matcher does. *)
Fixpoint star_loop (body : (pos -> option pos) -> pos -> option pos)
    (k : pos -> option pos) (fuel : nat) (c : pos) : option pos :=
  match fuel with
  | O => k c
  | S n =>
      orelse
        (body (fun c' =>
                 if Nat.ltb (String.length (rest c')) (String.length (rest c))
                 then star_loop body k n c' else None) c)
        (k c)
  end.

Fixpoint lazy_loop (body : (pos -> option pos) -> pos -> option pos)
    (k : pos -> option pos) (fuel : nat) (c : pos) : option pos :=
  match fuel with
  | O => k c
  | S n =>
      orelse
        (k c)
        (body (fun c' =>
                 if Nat.ltb (String.length (rest c')) (String.length (rest c))
                 then lazy_loop body k n c' else None) c)
  end.

(** The backtracking matcher in continuation-passing style: [run fl r k c]
    matches [r] at [c] and hands the position after it to [k]; alternatives
    are tried in the order Python tries them, the first success wins. *)
Fixpoint run (fl : flags) (r : regex) (k : pos -> option pos) (c : pos) : option pos :=
  match r with
  | Eps => k c
  | Chr a => step (chr_matches fl a) k c
  | Dot => step (dot_matches fl) k c
  | Space => step PyStr.isspace_char k c
  | Class rs => step (class_matches rs) k c
  | Seq r1 r2 => run fl r1 (run fl r2 k) c
  | Alt r1 r2 => orelse (run fl r1 k c) (run fl r2 k c)
  | Star r' => star_loop (run fl r') k (String.length (rest c)) c
  | LazyStar r' => lazy_loop (run fl r') k (String.length (rest c)) c
  | Opt r' => orelse (run fl r' k c) (k c)
  | Group r' =>
      run fl r'
        (fun c' =>
           k {| prev := prev c'; rest := rest c';
                cap := Some (String.substring 0
                               (String.length (rest c) - String.length (rest c'))
                               (rest c)) |}) c
  | Eol => if at_eol (rest c) then k c else None
  | NotAhead r' =>
      match run fl r' Some c with
      | Some _ => None
      | None => k c
      end
  | WordB => if xorb (word_before c) (word_after c) then k c else None
  end.

(** A match attempt at one position. *)
Definition match_at (fl : flags) (r : regex) (p : option ascii) (s : string) : option pos :=
  run fl r Some {| prev := p; rest := s; cap := None |}.

(** [re.search]: the leftmost position with a match; the result is the
    subject from that position on and the position after the match. *)
Fixpoint search_from (fl : flags) (r : regex) (p : option ascii) (s : string)
  : option (string * pos) :=
  match match_at fl r p s with
  | Some e => Some (s, e)
  | None =>
      match s with
      | EmptyString => None
      | String c s' => search_from fl r (Some c) s'
      end
  end.

Definition search (fl : flags) (r : regex) (s : string) : bool :=
  match search_from fl r None s with Some _ => true | None => false end.

(** The text of a match found by [search_from]. *)
Definition matched (m : string * pos) : string :=
  String.substring 0 (String.length (fst m) - String.length (rest (snd m))) (fst m).

(** [re.sub(r, '', s)]: every match, leftmost first and without overlap, is
    deleted.  [skip] counts the characters of a match still to be dropped. *)
Fixpoint erase_from (fl : flags) (r : regex) (p : option ascii) (skip : nat) (s : string)
  : string :=
  match s with
  | EmptyString => EmptyString
  | String c s' =>
      match skip with
      | S n => erase_from fl r (Some c) n s'
      | O =>
          match match_at fl r p s with
          | Some e =>
              match String.length s - String.length (rest e) with
              | O => String c (erase_from fl r (Some c) 0 s')
              | S n => erase_from fl r (Some c) n s'
              end
          | None => String c (erase_from fl r (Some c) 0 s')
          end
      end
  end.

Definition erase (fl : flags) (r : regex) (s : string) : string :=
  erase_from fl r None 0 s.

End Re.

(** ** Exceptions ([utils/exceptions.py]) *)

Inductive exn_class : Type :=
| SecurityError
| ValidationError
| QueryProcessingError
| DatabaseError
| TimeoutError
| ModelError
| RAGAgentError
| OtherException.   (* any other subclass of [Exception] *)

(** An exception value: its class and [str(e)]. *)
Record exn := { exn_cls : exn_class; exn_msg : string }.

Inductive result (A : Type) : Type :=
| Ok (a : A)
| Raise (e : exn).
Arguments Ok {A} a.
Arguments Raise {A} e.

Definition raise {A} (c : exn_class) (msg : string) : result A :=
  Raise {| exn_cls := c; exn_msg := msg |}.

#[global] Instance result_ret : MRet result := fun _ a => Ok a.
#[global] Instance result_bind : MBind result := fun _ _ f r =>
  match r with
  | Ok a => f a
  | Raise e => Raise e
  end.

#[global] Instance result_fmap : FMap result := fun _ _ f r =>
  match r with
  | Ok a => Ok (f a)
  | Raise e => Raise e
  end.

(** The decimal text of a number, as an f-string prints it. *)
Definition str_of_nat (n : nat) : string := NilEmpty.string_of_uint (Nat.to_uint n).

(** ** [utils/security.py] *)

Module SecurityValidator.
Import Re.

Definition IGNORECASE : flags := {| ignorecase := true; dotall := false |}.

(** [r+] and sequences of several parts. *)
Definition seqs (rs : list regex) : regex := foldr Seq Eps rs.

Definition hex_digit : regex :=
  Class [("0"%char, "9"%char); ("a"%char, "f"%char); ("A"%char, "F"%char)].

(** The denylist: each pattern's source text (reported on rejection) with
    its syntax tree. *)
Definition dangerous_patterns : list (string * regex) :=
  [ ("--.*$",                 seqs [lit "--"; Star Dot; Eol]);
    (";\s*(?!$)",             seqs [Chr ";"; Star Space; NotAhead Eol]);
    ("/\*.*\*/",              seqs [lit "/*"; Star Dot; lit "*/"]);
    ("UNION\s+ALL\s+SELECT",  seqs [lit "UNION"; Plus Space; lit "ALL"; Plus Space; lit "SELECT"]);
    ("UNION\s+SELECT",        seqs [lit "UNION"; Plus Space; lit "SELECT"]);
    ("DROP\s+TABLE",          seqs [lit "DROP"; Plus Space; lit "TABLE"]);
    ("DELETE\s+FROM",         seqs [lit "DELETE"; Plus Space; lit "FROM"]);
    ("UPDATE\s+.*\s+SET",     seqs [lit "UPDATE"; Plus Space; Star Dot; Plus Space; lit "SET"]);
    ("INSERT\s+INTO",         seqs [lit "INSERT"; Plus Space; lit "INTO"]);
    ("ALTER\s+TABLE",         seqs [lit "ALTER"; Plus Space; lit "TABLE"]);
    ("EXEC\s+.*",             seqs [lit "EXEC"; Plus Space; Star Dot]);
    ("EXECUTE\s+.*",          seqs [lit "EXECUTE"; Plus Space; Star Dot]);
    ("xp_cmdshell",           lit "xp_cmdshell");
    ("sp_",                   lit "sp_");
    ("0x[0-9a-fA-F]+",        seqs [lit "0x"; Plus hex_digit]) ].

(** [\b(COUNT|SUM|AVG|MIN|MAX)\s*\(\s*\*\s*\)] *)
Definition aggregate_star : regex :=
  seqs [ WordB;
         Group (Alt (lit "COUNT") (Alt (lit "SUM") (Alt (lit "AVG") (Alt (lit "MIN") (lit "MAX")))));
         Star Space; Chr "("; Star Space; Chr "*"; Star Space; Chr ")" ].

(** The text the denylist is run on: trailing semicolons removed, then the
    bare aggregate calls erased. *)
Definition query_to_check (query : string) : string :=
  erase IGNORECASE aggregate_star (PyStr.rstrip_char ";" query).

(** The [for pattern in dangerous_patterns] loop. *)
Fixpoint scan (patterns : list (string * regex)) (text : string) : result bool :=
  match patterns with
  | [] => Ok true
  | (source, r) :: patterns' =>
      if search IGNORECASE r text
      then raise SecurityError ("Potential SQL injection detected: " +:+ source)
      else scan patterns' text
  end.

Definition validate_sql_injection (query : string) : result bool :=
  scan dangerous_patterns (query_to_check query).

Definition sanitize_input (input_str : string) : string :=
  let input_str := PyStr.filter (fun c => negb (PyStr.eqb_char c "000"%char)) input_str in
  PyStr.filter (fun c => Nat.leb 32 (PyStr.ord c)) input_str.

Definition validate_query_length (query : string) (max_length : nat) : result bool :=
  if Nat.ltb max_length (String.length query)
  then raise SecurityError
         ("Query exceeds maximum length of " +:+ str_of_nat max_length +:+ " characters")
  else Ok true.

End SecurityValidator.

Module QueryValidator.
Import SecurityValidator.

(** The parameter [query] is rebound to its sanitized copy; the caller's
    string is not touched. *)
Definition validate_query (query : string) : result bool :=
  let query := sanitize_input query in
  validate_query_length query 1000 ;;
  validate_sql_injection query ;;
  Ok true.

End QueryValidator.

(** ** [config.py] *)

Module Config.

Definition MAX_QUERY_LENGTH : nat := 1000.
Definition QUERY_TIMEOUT : nat := 30.

Definition ALLOWED_SQL_KEYWORDS : gset string :=
  list_to_set
    [ "SELECT"; "FROM"; "WHERE"; "GROUP BY"; "ORDER BY"; "HAVING";
      "JOIN"; "LEFT JOIN"; "RIGHT JOIN"; "INNER JOIN"; "ON";
      "AND"; "OR"; "NOT"; "IN"; "LIKE"; "IS"; "NULL";
      "AS"; "DISTINCT"; "COUNT"; "SUM"; "AVG"; "MIN"; "MAX";
      "CASE"; "WHEN"; "THEN"; "ELSE"; "END";
      "ASC"; "DESC"; "LIMIT"; "OFFSET";
      "WITH"; "UNION"; "ALL";
      "COALESCE"; "IFNULL"; "NULLIF"; "CAST";
      "UPPER"; "LOWER"; "TRIM"; "LENGTH";
      "SUBSTR"; "REPLACE"; "CONCAT";
      "ROUND"; "FLOOR"; "CEIL";
      "DATE"; "DATETIME"; "STRFTIME";
      "="; "!="; "<>"; "<"; ">"; "<="; ">=";
      "+"; "-"; "*"; "/"; "%";
      "||"; "&&" ].

End Config.

(** ** [query_processor.py]: the pure parts *)

Module QueryProcessor.
Import Re.

Definition LF : string := String newline EmptyString.
Definition DQUOTE : ascii := "034"%char.

(** *** [validate_sql] *)

(** The state of the character loop that splits the SELECT part. *)
Record splitter := {
  words : list string;
  current_word : string;
  in_parentheses : bool
}.

Definition flush (st : splitter) : list string :=
  if PyStr.is_empty (current_word st) then words st
  else words st ++ [current_word st].

Definition split_step (st : splitter) (char : ascii) : splitter :=
  if PyStr.eqb_char char "("%char then
    {| words := flush st ++ ["("]; current_word := ""; in_parentheses := true |}
  else if PyStr.eqb_char char ")"%char then
    {| words := flush st ++ [")"]; current_word := ""; in_parentheses := false |}
  else if PyStr.isspace_char char && negb (in_parentheses st) then
    {| words := flush st; current_word := ""; in_parentheses := in_parentheses st |}
  else
    {| words := words st;
       current_word := current_word st +:+ String char EmptyString;
       in_parentheses := in_parentheses st |}.

Fixpoint split_loop (st : splitter) (select_part : string) : splitter :=
  match select_part with
  | EmptyString => st
  | String char s' => split_loop (split_step st char) s'
  end.

Definition split_words (select_part : string) : list string :=
  flush (split_loop {| words := []; current_word := ""; in_parentheses := false |} select_part).

Definition quoted (word : string) : bool :=
  match word with
  | String c _ =>
      PyStr.eqb_char c DQUOTE || PyStr.eqb_char c "'"%char || PyStr.eqb_char c "`"%char
  | EmptyString => false
  end.

Definition aggregates : gset string := list_to_set ["COUNT"; "SUM"; "AVG"; "MIN"; "MAX"].

Definition operators : gset string :=
  list_to_set ["="; "!="; "<>"; "<"; ">"; "<="; ">="; "+"; "-"; "*"; "/"; "%";
               "("; ")"; ","; "AS"].

(** [all(part.replace('_', '').isalnum() for part in word.split('.'))] *)
Definition identifier (word : string) : bool :=
  forallb (fun part => PyStr.isalnum (PyStr.replace "_" "" part)) (PyStr.split_char "."%char word).

(** [word.replace('.', '').replace('-', '').isdigit()] *)
Definition number (word : string) : bool :=
  PyStr.isdigit (PyStr.replace "-" "" (PyStr.replace "." "" word)).

(** The [while i < len(words)] walk over the suffix [words[i:]].  [in_call]
    is set while the inner loop [while i < len(words) and words[i] != ")"]
    advances; the [i += 1] after it steps over the closing parenthesis.
    The result is the first disallowed word, if any. *)
Fixpoint check_words (in_call : bool) (ws : list string) : option string :=
  match ws with
  | [] => None
  | word :: ws' =>
      if in_call then check_words (negb (String.eqb word ")")) ws'
      else if quoted word then check_words false ws'
      else if bool_decide (word ∈ aggregates) then check_words true ws'
      else if identifier word then check_words false ws'
      else if number word || bool_decide (word ∈ operators) then check_words false ws'
      else if bool_decide (word ∈ Config.ALLOWED_SQL_KEYWORDS) then check_words false ws'
      else Some word
  end.

(** The body of the [try] block.  (The [sql_validations] counter it bumps
    on acceptance does not influence the verdict and is left out.) *)
Definition validate_sql_try (sql : string) : result (bool * string) :=
  SecurityValidator.validate_sql_injection sql ;;
  if negb (PyStr.startswith "SELECT" (PyStr.upper (PyStr.strip sql)))
  then Ok (false, "Query must start with SELECT")
  else
    let normalized_sql := PyStr.upper sql in
    let select_part := PyStr.strip (PyStr.before_first "FROM" normalized_sql) in
    match check_words false (split_words select_part) with
    | Some word => Ok (false, "Disallowed SQL keyword or pattern: " +:+ word)
    | None => Ok (true, "")
    end.

(** The [except] clauses, in order: [SecurityError] first, then any other
    [Exception]. *)
Definition validate_sql_except (e : exn) : result (bool * string) :=
  match exn_cls e with
  | SecurityError => Ok (false, exn_msg e)
  | _ => Ok (false, "Validation error: " +:+ exn_msg e)
  end.

Definition try_except {A} (body : result A) (handler : exn -> result A) : result A :=
  match body with
  | Ok a => Ok a
  | Raise e => handler e
  end.

Definition validate_sql (sql : string) : result (bool * string) :=
  try_except (validate_sql_try sql) validate_sql_except.

(** *** [_create_sql_generation_prompt] *)

Definition prompt_template (user_query schema_info : string) : string :=
  LF +:+
  "    ### USER QUESTION START" +:+ LF +:+
  "    " +:+ user_query +:+ LF +:+
  "    ### USER QUESTION END" +:+ LF +:+
  LF +:+
  "    " +:+ schema_info +:+ LF +:+
  LF +:+
  "    ### INSTRUCTIONS" +:+ LF +:+
  "    Provide only the SQL query inside triple backticks (```). Don't include anything else in your response." +:+ LF +:+
  "    Strictly use the table names provided in the schema." +:+ LF +:+
  "    If the required tables are not in this schema, respond with " +:+
       String DQUOTE "TABLES_NOT_IN_CHUNK" +:+ String DQUOTE "." +:+ LF +:+
  "    # Example format:" +:+ LF +:+
  "    # ```sql" +:+ LF +:+
  "    # SELECT column FROM table WHERE condition;" +:+ LF +:+
  "    # ```" +:+ LF +:+
  "    # ".

Definition _create_sql_generation_prompt (user_query schema_info : string) : string :=
  PyStr.strip (prompt_template user_query schema_info).

(** *** [_parse_sql] *)

Definition DOTALL : flags := {| ignorecase := false; dotall := true |}.
Definition DOTALL_IGNORECASE : flags := {| ignorecase := true; dotall := true |}.

(** [```(?:sql)?\s*(.*?)\s*```] *)
Definition code_block : regex :=
  SecurityValidator.seqs
    [lit "```"; Opt (lit "sql"); Star Space; Group (LazyStar Dot); Star Space; lit "```"].

(** [(?:SELECT|WITH)\s+.*?(?:;|$)] *)
Definition sql_statement : regex :=
  SecurityValidator.seqs
    [Alt (lit "SELECT") (lit "WITH"); Plus Space; LazyStar Dot; Alt (Chr ";") Eol].

(** [re.findall(code_block, response)[0]]: group 1 of the first match. *)
Definition first_code_block (response : string) : option string :=
  match search_from DOTALL code_block None response with
  | Some (_, e) => Some (default "" (cap e))
  | None => None
  end.

(** [re.findall(sql_statement, response)[0]]: the text of the first match. *)
Definition first_sql_statement (response : string) : option string :=
  match search_from DOTALL_IGNORECASE sql_statement None response with
  | Some m => Some (matched m)
  | None => None
  end.

(** [[line.strip() for line in response.split('\n') if 'SELECT' in line.upper()]] *)
Definition select_lines (response : string) : list string :=
  List.map PyStr.strip
    (List.filter (fun line => PyStr.contains "SELECT" (PyStr.upper line))
       (PyStr.split_char newline response)).

Definition _parse_sql (response : string) : string :=
  match first_code_block response with
  | Some block =>
      let sql := PyStr.strip block in
      PyStr.strip (PyStr.replace "```" "" (PyStr.replace "```sql" "" sql))
  | None =>
      match first_sql_statement response with
      | Some stmt => PyStr.strip stmt
      | None =>
          match select_lines response with
          | line :: _ => PyStr.strip line
          | [] => PyStr.strip response
          end
      end
  end.

End QueryProcessor.

(** ** [schema_manager.py] *)

Module DatabaseSchemaManager.

Record column := {
  col_name : string;
  col_type : string;
  is_primary_key : bool;
  not_null : bool;
  col_default : option string
}.

Record table := { name : string; columns : list column }.

Record relationship := {
  rel_table : string;
  rel_column : string;
  references_table : string;
  references_column : string
}.

(** The dictionary [get_schema] returns (and caches). *)
Record schema := { tables : list table; relationships : list relationship }.

(** [sep.join(parts)] *)
Fixpoint join (sep : string) (parts : list string) : string :=
  match parts with
  | [] => ""
  | [p] => p
  | p :: parts' => p +:+ sep +:+ join sep parts'
  end.

(** One entry of [column_defs]. *)
Definition column_def (col : column) : string :=
  let flags := (if is_primary_key col then ["PK"] else []) ++
               (if not_null col then ["NN"] else []) in
  let flag_str := join " " flags in
  PyStr.strip (col_name col +:+ " " +:+ col_type col +:+ " " +:+ flag_str).

(** The line appended to [formatted] for one table. *)
Definition table_line (t : table) : string :=
  name t +:+ "(" +:+ join ", " (List.map column_def (columns t)) +:+ ");" +:+
  QueryProcessor.LF.

Definition header : string := "### DATABASE SCHEMA" +:+ QueryProcessor.LF +:+ QueryProcessor.LF.

Definition fallback_tables : list string := ["customer"; "countries"; "prospect"; "visit"].

(** The first loop: names of the tables mentioned in the lowercased question. *)
Fixpoint mentioned (query_lower : string) (ts : list table) (acc : gset string) : gset string :=
  match ts with
  | [] => acc
  | t :: ts' =>
      if PyStr.contains (PyStr.lower (name t)) query_lower
      then mentioned query_lower ts' (acc ∪ {[ name t ]})
      else mentioned query_lower ts' acc
  end.

(** [relevant_tables] as it stands when rendering begins. *)
Definition relevant_tables (s : schema) (user_query : string) : gset string :=
  let query_lower := PyStr.lower user_query in
  let relevant := mentioned query_lower (tables s) ∅ in
  if decide (relevant = ∅)
  then relevant ∪
       list_to_set (filter (fun t => t ∈ name <$> tables s) fallback_tables)
  else relevant.

(** The rendering loop. *)
Fixpoint render (relevant : gset string) (ts : list table) (formatted : string) : string :=
  match ts with
  | [] => formatted
  | t :: ts' =>
      if decide (name t ∈ relevant)
      then render relevant ts' (formatted +:+ table_line t)
      else render relevant ts' formatted
  end.

Definition filter_relevant_tables (s : schema) (user_query : string) : string :=
  render (relevant_tables s user_query) (tables s) header.

End DatabaseSchemaManager.

(** ** Effects: the log of calls handed to the outside world *)

Inductive event : Type :=
| LlmCall (text : string) (max_tokens : Z) (stop : list string)
    (* [self.llm(text, max_tokens=.., stop=.., echo=False, temperature=0.1)] *)
| StoreExecute (sql : string).
    (* [connection.execute(sql)] *)

(** A computation: the events it emitted and how it ended. *)
Record io (A : Type) := IO { log : list event; outcome : result A }.
Arguments IO {A} log outcome.
Arguments log {A} _.
Arguments outcome {A} _.

#[global] Instance io_ret : MRet io := fun _ a => IO [] (Ok a).
#[global] Instance io_bind : MBind io := fun _ _ f m =>
  match outcome m with
  | Ok a => let m' := f a in IO (log m ++ log m') (outcome m')
  | Raise e => IO (log m) (Raise e)
  end.

Definition lift {A} (r : result A) : io A := IO [] r.
Definition emit (ev : event) : io unit := IO [ev] (Ok tt).
Definition io_raise {A} (c : exn_class) (msg : string) : io A := lift (raise c msg).

(** [try: body except Exception as e: handler e] *)
Definition try_io {A} (body : io A) (handler : exn -> io A) : io A :=
  match outcome body with
  | Ok _ => body
  | Raise e => let h := handler e in IO (log body ++ log h) (outcome h)
  end.

(** ** [llm_client.py] *)

Module LocalLLMClient.

(** The client object.  The model itself is an oracle: its tokenizer, its
    detokenizer and its completion; [load_done_within t] tells whether the
    loading thread has set [is_loaded] once [join(t)] returns. *)
Record client := {
  is_loaded : bool;
  load_done_within : nat -> bool;
  tokenize : string -> result (list Z);
  detokenize : list Z -> result string;
  llm : string -> result string
}.

Definition set_loaded (c : client) (b : bool) : client :=
  {| is_loaded := b; load_done_within := load_done_within c;
     tokenize := tokenize c; detokenize := detokenize c; llm := llm c |}.

(** [self.load_thread.join(timeout); return self.is_loaded] *)
Definition wait_for_model (c : client) (timeout : nat) : bool * client :=
  let loaded := is_loaded c || load_done_within c timeout in
  (loaded, set_loaded c loaded).

Definition instruction_template (prompt : string) : string :=
  "You are a SQL query generator. Your task is to convert natural language questions into SQL queries." +:+ QueryProcessor.LF +:+
  "You must ONLY output the SQL query without any explanations or additional text." +:+ QueryProcessor.LF +:+
  "The SQL query should be wrapped in triple backticks with the sql language specifier." +:+ QueryProcessor.LF +:+
  "        ### Instruction:" +:+ QueryProcessor.LF +:+
  "        " +:+ prompt +:+ QueryProcessor.LF +:+
  QueryProcessor.LF +:+
  "        ### Response:".

Definition stop_sequences : list string :=
  ["### Question:"; "### SQL Query:"; "### USER QUESTION START"].

Definition max_context_tokens : Z := 16384.
Definition max_response_tokens : Z := 1024.
Definition max_prompt_tokens : Z := max_context_tokens - max_response_tokens.

(** The truncation step: the value of the local [prompt] after the [if]. *)
Definition truncated_prompt (c : client) (prompt : string) (encoded : list Z) : result string :=
  if (max_prompt_tokens <? Z.of_nat (List.length encoded))%Z
  then
    let encoded := take (Z.to_nat max_prompt_tokens) encoded in
    detokenize c encoded
  else Ok prompt.

Definition generate_sql (c : client) (prompt : string) : io string :=
  if negb (is_loaded c) && negb (fst (wait_for_model c 30))
  then mret "Model not ready."
  else
    let wrapped_prompt := instruction_template prompt in
    encoded ← lift (tokenize c prompt);
    prompt ← lift (truncated_prompt c prompt encoded);
    try_io
      (emit (LlmCall wrapped_prompt max_response_tokens stop_sequences);;
       text ← lift (llm c wrapped_prompt);
       mret (PyStr.strip text))
      (fun _ => mret "Error generating SQL.").

End LocalLLMClient.

(** ** [query_executor.py] *)

Module QueryExecutor.

(** A value in a fetched row; reals and blobs are kept as their text. *)
Inductive sql_value : Type :=
| SqlNull
| SqlInt (z : Z)
| SqlText (s : string)
| SqlOther (repr : string).

Definition row := list sql_value.
Definition record := list (string * sql_value).

Record summary := {
  row_count : nat;
  column_count : nat;
  column_types : list (string * string)
}.

(** What pandas makes of the rows: the records, the column names and the
    summary statistics. *)
Record frame := {
  frame_records : list record;
  frame_columns : list string;
  frame_summary : summary
}.

(** The store and pandas are oracles. *)
Record backend := {
  store : string -> result (list row * list string);
      (* connect, set the busy timeout, execute, fetch rows and column names *)
  dataframe : list row -> list string -> result frame
}.

(** The dictionary [execute_query] returns. *)
Record execution_result := {
  exec_status : string;
  exec_data : list row;
  exec_columns : list string
}.

Inductive data : Type :=
| Records (rs : list record)
| Rows (rs : list row).

(** The dictionary [format_results] returns.  An execution result that is
    not a success is handed back as it is, without a message; [fmt_summary]
    is absent unless formatting succeeded. *)
Record formatted := {
  fmt_status : string;
  fmt_message : option string;
  fmt_data : data;
  fmt_columns : list string;
  fmt_summary : option summary
}.

Definition execute_query (b : backend) (sql : string) : io execution_result :=
  try_io
    (emit (StoreExecute sql);;
     fetched ← lift (store b sql);
     mret {| exec_status := "success"; exec_data := fst fetched; exec_columns := snd fetched |})
    (fun e =>
       if PyStr.contains "timeout" (PyStr.lower (exn_msg e))
       then io_raise TimeoutError
              ("Query execution timed out after " +:+ str_of_nat Config.QUERY_TIMEOUT +:+ " seconds")
       else io_raise DatabaseError ("Failed to execute query: " +:+ exn_msg e)).

Definition format_results (b : backend) (execution_result : execution_result) : formatted :=
  if negb (String.eqb (exec_status execution_result) "success")
  then {| fmt_status := exec_status execution_result; fmt_message := None;
          fmt_data := Rows (exec_data execution_result);
          fmt_columns := exec_columns execution_result; fmt_summary := None |}
  else
    match dataframe b (exec_data execution_result) (exec_columns execution_result) with
    | Ok df =>
        {| fmt_status := "success";
           fmt_message := Some "Query executed successfully";
           fmt_data := Records (frame_records df);
           fmt_columns := frame_columns df;
           fmt_summary := Some (frame_summary df) |}
    | Raise e =>
        {| fmt_status := "error";
           fmt_message := Some ("Failed to format results: " +:+ exn_msg e);
           fmt_data := Rows (exec_data execution_result);
           fmt_columns := exec_columns execution_result;
           fmt_summary := None |}
    end.

End QueryExecutor.

(** ** [QueryProcessor.process_query] and [rag_agent.py] *)

Module OfflineRAGAgent.
Import DatabaseSchemaManager LocalLLMClient QueryExecutor.

(** The agent's collaborators.  [get_schema] is the outcome of
    [schema_manager.get_schema()]: the cached schema, or the store's error. *)
Record agent := {
  get_schema : result schema;
  llm_client : client;
  backend_of : backend
}.

(** [QueryProcessor.process_query]; the result is the value under ["sql"]. *)
Definition generate_query (a : agent) (llm_client : client) (user_query : string) : io string :=
  try_io
    (if PyStr.is_empty user_query
     then io_raise ValidationError "Invalid query input"
     else
       s ← lift (get_schema a);
       let schema_info := filter_relevant_tables s user_query in
       let prompt := QueryProcessor._create_sql_generation_prompt user_query schema_info in
       raw_sql ← generate_sql llm_client prompt;
       let sql := QueryProcessor._parse_sql raw_sql in
       verdict ← lift (QueryProcessor.validate_sql sql);
       if negb (fst verdict)
       then io_raise QueryProcessingError ("Invalid SQL generated: " +:+ snd verdict)
       else mret sql)
    (fun e => io_raise QueryProcessingError ("Failed to process query: " +:+ exn_msg e)).

(** The value under ["results"]. *)
Inductive results_value : Type :=
| NoResults                      (* [None] *)
| Results (d : data).

(** The dictionary [process_query] returns; an optional field is a key that
    may be absent.  [metrics] lists the keys of the metrics mapping (its
    values are wall-clock timings). *)
Record response := {
  status : string;
  message : string;
  user_query : string;
  sql : option string;
  results : option results_value;
  columns : option (list string);
  summary : option (option summary);
  metrics : option (list string)
}.

Definition brief (status message user_query : string) : response :=
  {| status := status; message := message; user_query := user_query;
     sql := None; results := None; columns := None; summary := None; metrics := None |}.

(** [d[key]] on a key that may be absent. *)
Definition lookup_key {A} (key : string) (v : option A) : result A :=
  match v with
  | Some x => Ok x
  | None => raise OtherException ("'" +:+ key +:+ "'")
  end.

(** The body of the [try] block of [process_query].  (The logging calls,
    the [successful_queries] counter and the timing decorator around the
    method do not take part in the result and are left out.) *)
Definition process_query_try (a : agent) (user_query : string) : io response :=
  lift (QueryValidator.validate_query user_query);;
  let waited :=
    if negb (is_loaded (llm_client a))
    then wait_for_model (llm_client a) Config.QUERY_TIMEOUT
    else (true, llm_client a) in
  if negb (fst waited)
  then mret (brief "pending" "Model loading timeout. Please try again." user_query)
  else
    sql ← generate_query a (snd waited) user_query;
    verdict ← lift (QueryProcessor.validate_sql sql);
    if negb (fst verdict)
    then mret {| status := "error";
                 message := "Invalid SQL: " +:+ snd verdict;
                 user_query := user_query;
                 sql := Some sql;
                 results := Some NoResults;
                 columns := None; summary := None; metrics := None |}
    else
      execution_result ← execute_query (backend_of a) sql;
      let formatted_results := format_results (backend_of a) execution_result in
      message ← lift (lookup_key "message" (fmt_message formatted_results));
      mret {| status := fmt_status formatted_results;
              message := message;
              user_query := user_query;
              sql := Some sql;
              results := Some (Results (fmt_data formatted_results));
              columns := Some (fmt_columns formatted_results);
              summary := Some (fmt_summary formatted_results);
              metrics := Some ["processing_time"] |}.

(** The [except] clauses of [process_query], in order. *)
Definition process_query_except (user_query : string) (e : exn) : io response :=
  match exn_cls e with
  | SecurityError => mret (brief "error" ("Security error: " +:+ exn_msg e) user_query)
  | TimeoutError => mret (brief "error" ("Query timeout: " +:+ exn_msg e) user_query)
  | _ => mret (brief "error" ("An unexpected error occurred: " +:+ exn_msg e) user_query)
  end.

Definition process_query (a : agent) (user_query : string) : io response :=
  try_io (process_query_try a user_query) (process_query_except user_query).

End OfflineRAGAgent.

(** ** A small installation for running the model *)

(** A stand-in model for running the client: one token per character, and
    a fixed completion. *)
Definition char_tokens (s : string) : list Z :=
  List.map (fun c => Z.of_nat (nat_of_ascii c)) (list_ascii_of_string s).

Definition chars_of_tokens (ts : list Z) : string :=
  string_of_list_ascii (List.map (fun z => ascii_of_nat (Z.to_nat z)) ts).

Definition char_model (loaded : bool) (completion : string) : LocalLLMClient.client :=
  {| LocalLLMClient.is_loaded := loaded;
     LocalLLMClient.load_done_within := fun _ => false;
     LocalLLMClient.tokenize := fun s => Ok (char_tokens s);
     LocalLLMClient.detokenize := fun ts => Ok (chars_of_tokens ts);
     LocalLLMClient.llm := fun _ => Ok completion |}.

(** [n] copies of one character. *)
Fixpoint copies (n : nat) (c : ascii) : string :=
  match n with
  | O => EmptyString
  | S n' => String c (copies n' c)
  end.

(** A prompt one token over the budget of 15360. *)
Definition long_prompt : string := copies (Z.to_nat 15361) "a".

(** A schema with two tables, and a store that answers every statement
    with one row. *)
Definition demo_schema : DatabaseSchemaManager.schema :=
  {| DatabaseSchemaManager.tables :=
       [ {| DatabaseSchemaManager.name := "customers";
            DatabaseSchemaManager.columns :=
              [ {| DatabaseSchemaManager.col_name := "id";
                   DatabaseSchemaManager.col_type := "TEXT";
                   DatabaseSchemaManager.is_primary_key := true;
                   DatabaseSchemaManager.not_null := true;
                   DatabaseSchemaManager.col_default := None |};
                {| DatabaseSchemaManager.col_name := "country";
                   DatabaseSchemaManager.col_type := "TEXT";
                   DatabaseSchemaManager.is_primary_key := false;
                   DatabaseSchemaManager.not_null := false;
                   DatabaseSchemaManager.col_default := None |} ] |};
         {| DatabaseSchemaManager.name := "visit";
            DatabaseSchemaManager.columns := [] |} ];
     DatabaseSchemaManager.relationships := [] |}.

Definition demo_backend : QueryExecutor.backend :=
  {| QueryExecutor.store := fun _ => Ok ([[QueryExecutor.SqlText "c1"]], ["id"]);
     QueryExecutor.dataframe := fun rows cols =>
       Ok {| QueryExecutor.frame_records := [[("id", QueryExecutor.SqlText "c1")]];
             QueryExecutor.frame_columns := cols;
             QueryExecutor.frame_summary :=
               {| QueryExecutor.row_count := List.length rows;
                  QueryExecutor.column_count := List.length cols;
                  QueryExecutor.column_types := [("id", "object")] |} |} |}.

Definition demo_agent (loaded : bool) (completion : string) : OfflineRAGAgent.agent :=
  {| OfflineRAGAgent.get_schema := Ok demo_schema;
     OfflineRAGAgent.llm_client := char_model loaded completion;
     OfflineRAGAgent.backend_of := demo_backend |}.

(** A completion that carries its statement in a fenced block. *)
Definition fenced_completion : string :=
  "```sql" +:+ QueryProcessor.LF +:+ "SELECT id FROM customers" +:+ QueryProcessor.LF +:+ "```".

(** ** The specification's vocabulary *)

Module Spec.

(** [sub] occurs in [s]. *)
Definition substring (sub s : string) : Prop :=
  exists pre post, s = pre +:+ sub +:+ post.

(** Strip a single trailing semicolon. *)
Fixpoint strip_one_semicolon (s : string) : string :=
  match s with
  | EmptyString => EmptyString
  | String c EmptyString => if PyStr.eqb_char c ";" then EmptyString else s
  | String c s' => String c (strip_one_semicolon s')
  end.

(** [s] holds a semicolon that is not its very last character. *)
Fixpoint inner_semicolon (s : string) : bool :=
  match s with
  | EmptyString => false
  | String c s' => (PyStr.eqb_char c ";" && negb (PyStr.is_empty s')) || inner_semicolon s'
  end.

(** The text begins with the keyword [kw] (in any case) and white space. *)
Definition begins_with (kw s : string) : bool :=
  PyStr.startswith (PyStr.lower kw) (PyStr.lower s) &&
  match String.substring (String.length kw) 1 s with
  | String c _ => PyStr.isspace_char c
  | EmptyString => false
  end.

(** Already-clean SQL: trimmed, without a code fence, and a statement from
    its first character on (no prose around it). *)
Definition clean_sql (s : string) : bool :=
  String.eqb (PyStr.strip s) s &&
  negb (PyStr.contains "```" s) &&
  (begins_with "SELECT" s || begins_with "WITH" s).

(** A table is mentioned in a question: its lowercased name occurs in the
    lowercased question. *)
Definition mentions (user_query : string) (t : DatabaseSchemaManager.table) : Prop :=
  substring (PyStr.lower (DatabaseSchemaManager.name t)) (PyStr.lower user_query).

End Spec.

(** ** Vocabulary of the proofs *)

Module Aux.
Import Re SecurityValidator QueryProcessor DatabaseSchemaManager.

(** The lines of the tables shown, in schema order. *)
Definition lines (ts : list table) : string :=
  foldr (fun t acc => table_line t +:+ acc) "" ts.

(** The character before the position reached after reading [pre]. *)
Fixpoint prev_after (p : option ascii) (pre : string) : option ascii :=
  match pre with
  | EmptyString => p
  | String c pre' => prev_after (Some c) pre'
  end.

(** The pattern of the second entry of the denylist. *)
Definition semicolon_pattern : regex := seqs [Chr ";"; Star Space; NotAhead Eol].

(** [s] is not empty and its last character satisfies [p]. *)
Fixpoint ends_with_by (p : ascii -> bool) (s : string) : bool :=
  match s with
  | EmptyString => false
  | String c EmptyString => p c
  | String _ s' => ends_with_by p s'
  end.

(** The conditions on the text still to be read: a semicolon only as the
    last character, and no white space at the end. *)
Definition tail_ok (t : string) : Prop :=
  Spec.inner_semicolon t = false /\ ends_with_by PyStr.isspace_char t = false.

(** The continuations of [sql_statement] after its keyword. *)
Definition statement_end : pos -> option pos :=
  run DOTALL_IGNORECASE (Seq (Alt (Chr ";") Eol) Eps) Some.

Definition statement_body (c : pos) : option pos :=
  lazy_loop (run DOTALL_IGNORECASE Dot) statement_end (String.length (rest c)) c.

Definition statement_space (c : pos) : option pos :=
  star_loop (run DOTALL_IGNORECASE Space) statement_body (String.length (rest c)) c.

(** A match that reads the subject to its end. *)
Definition to_end (o : option pos) : Prop := exists e, o = Some e /\ rest e = "".

(** After the keyword: white space, the statement, its end. *)
Definition after_keyword : pos -> option pos :=
  run DOTALL_IGNORECASE
    (Seq (Plus Space) (Seq (LazyStar Dot) (Seq (Alt (Chr ";") Eol) Eps))) Some.

End Aux.

(** The model's readiness as [process_query] sees it. *)
Definition readiness (a : OfflineRAGAgent.agent) : bool * LocalLLMClient.client :=
  if negb (LocalLLMClient.is_loaded (OfflineRAGAgent.llm_client a))
  then LocalLLMClient.wait_for_model (OfflineRAGAgent.llm_client a) Config.QUERY_TIMEOUT
  else (true, OfflineRAGAgent.llm_client a).

(** ** Vocabulary of the further properties *)

Module Shape.
Import Re SecurityValidator QueryProcessor.

(** A character other than a parenthesis. *)
Definition not_paren (c : ascii) : bool :=
  negb (PyStr.eqb_char c "(" || PyStr.eqb_char c ")").

(** What the character loop keeps true of its state. *)
Definition splitter_ok (st : splitter) : Prop :=
  Forall (fun w => w <> "" /\ (w = "(" \/ w = ")" \/ PyStr.forallb not_paren w = true))
         (words st) /\
  PyStr.forallb not_paren (current_word st) = true.

(** A character other than the newline. *)
Definition not_newline (c : ascii) : bool := negb (PyStr.eqb_char c newline).

(** The text lies on one line: no newline, except possibly as its very
    last character. *)
Fixpoint single_line (s : string) : bool :=
  match s with
  | EmptyString => true
  | String _ EmptyString => true
  | String c s' => not_newline c && single_line s'
  end.

(** The pattern of the first entry of the denylist. *)
Definition comment_pattern : regex := seqs [lit "--"; Star Dot; Eol].

(** The continuation of [comment_pattern] after the two dashes. *)
Definition comment_end (c : pos) : option pos :=
  if at_eol (rest c) then Some c else None.

(** The prompt without the white space that [strip] removes. *)
Definition prompt_text (user_query schema_info : string) : string :=
  "### USER QUESTION START" +:+ LF +:+
  "    " +:+ user_query +:+ LF +:+
  "    ### USER QUESTION END" +:+ LF +:+
  LF +:+
  "    " +:+ schema_info +:+ LF +:+
  LF +:+
  "    ### INSTRUCTIONS" +:+ LF +:+
  "    Provide only the SQL query inside triple backticks (```). Don't include anything else in your response." +:+ LF +:+
  "    Strictly use the table names provided in the schema." +:+ LF +:+
  "    If the required tables are not in this schema, respond with " +:+
       String DQUOTE "TABLES_NOT_IN_CHUNK" +:+ String DQUOTE "." +:+ LF +:+
  "    # Example format:" +:+ LF +:+
  "    # ```sql" +:+ LF +:+
  "    # SELECT column FROM table WHERE condition;" +:+ LF +:+
  "    # ```" +:+ LF +:+
  "    #".

End Shape.

Module Fence.
Import Re QueryProcessor.

(** A character other than the backtick. *)
Definition not_tick (c : ascii) : bool := negb (PyStr.eqb_char c "`").

(** The end of a fenced block: a newline and the closing fence. *)
Definition closing : string := LF +:+ "```".

(** The continuations of [code_block] inside the block. *)
Definition close_lit : pos -> option pos :=
  run DOTALL (Seq (lit "```") Eps) Some.

Definition fence_close (c : pos) : option pos :=
  star_loop (run DOTALL Space) close_lit (String.length (rest c)) c.

(** What the capturing group hands on: the position reached, with the text
    read since [start] as the capture. *)
Definition captured (start : string) (c' : pos) : option pos :=
  fence_close {| prev := prev c'; rest := rest c';
                 cap := Some (String.substring 0
                                (String.length start - String.length (rest c')) start) |}.

Definition block_body (c : pos) : option pos :=
  lazy_loop (run DOTALL Dot) (captured (rest c)) (String.length (rest c)) c.

(** A match that reads the subject to its end and captures [b]. *)
Definition captures (b : string) (o : option pos) : Prop :=
  exists e, o = Some e /\ rest e = "" /\ cap e = Some b.

(** The completion that holds [b] in a fenced block tagged [sql]. *)
Definition fenced (b : string) : string := "```sql" +:+ LF +:+ b +:+ closing.

End Fence.

(** ** Installations with a failing part *)

(** A loaded model whose completion call raises. *)
Definition broken_model : LocalLLMClient.client :=
  {| LocalLLMClient.is_loaded := true;
     LocalLLMClient.load_done_within := fun _ => false;
     LocalLLMClient.tokenize := fun s => Ok (char_tokens s);
     LocalLLMClient.detokenize := fun ts => Ok (chars_of_tokens ts);
     LocalLLMClient.llm := fun _ => raise OtherException "llama_decode failed" |}.

(** A store that fails with the given message, and a pandas that fails. *)
Definition failing_store (msg : string) : QueryExecutor.backend :=
  {| QueryExecutor.store := fun _ => raise OtherException msg;
     QueryExecutor.dataframe := QueryExecutor.dataframe demo_backend |}.

Definition failing_pandas : QueryExecutor.backend :=
  {| QueryExecutor.store := QueryExecutor.store demo_backend;
     QueryExecutor.dataframe := fun _ _ => raise OtherException "arrays must be of the same length" |}.

Definition agent_with (model : LocalLLMClient.client) (b : QueryExecutor.backend)
  : OfflineRAGAgent.agent :=
  {| OfflineRAGAgent.get_schema := Ok demo_schema;
     OfflineRAGAgent.llm_client := model;
     OfflineRAGAgent.backend_of := b |}.

(** ** [schema_manager.py]: the manager object and its cache *)

Module SchemaCache.
Import DatabaseSchemaManager.

(** The database file as the manager meets it: whether [sqlite3.connect]
    succeeds, and what the introspection queries yield. *)
Record database := {
  open_db : result unit;
  introspect : result schema
}.

(** The fields of the manager that change: [connection] (is one open?) and
    [schema_cache]. *)
Record manager := {
  connection : bool;
  schema_cache : option schema
}.

Definition with_connection (m : manager) (b : bool) : manager :=
  {| connection := b; schema_cache := schema_cache m |}.

Definition with_cache (m : manager) (s : schema) : manager :=
  {| connection := connection m; schema_cache := Some s |}.

(** [connect] *)
Definition connect (db : database) (m : manager) : result manager :=
  open_db db ;; Ok (with_connection m true).

(** [close] *)
Definition close (m : manager) : manager :=
  if connection m then with_connection m false else m.

(** [with self.get_connection() as conn: body]: the connection is opened if
    there is none, and closed in the [finally] clause whatever [body] did. *)
Definition get_connection {A} (db : database) (m : manager) (body : result A)
  : result A * manager :=
  match (if connection m then Ok m else connect db m) with
  | Raise e => (Raise e, close m)
  | Ok m1 => (body, close m1)
  end.

(** [get_schema(refresh)] *)
Definition get_schema (db : database) (refresh : bool) (m : manager)
  : result schema * manager :=
  match schema_cache m, refresh with
  | Some s, false => (Ok s, m)
  | _, _ =>
      match (if connection m then Ok m else connect db m) with
      | Raise e => (Raise e, m)
      | Ok m1 =>
          match get_connection db m1 (introspect db) with
          | (Ok s, m2) => (Ok s, with_cache m2 s)
          | (Raise e, m2) => (Raise e, m2)
          end
      end
  end.

(** The rendering loop of [format_schema_for_llm]. *)
Fixpoint render_all (ts : list table) (formatted : string) : string :=
  match ts with
  | [] => formatted
  | t :: ts' => render_all ts' (formatted +:+ table_line t)
  end.

(** [format_schema_for_llm], with the default [get_schema()] it starts with. *)
Definition format_schema_for_llm (db : database) (m : manager) : result string * manager :=
  match get_schema db false m with
  | (Ok s, m') => (Ok (render_all (tables s) header), m')
  | (Raise e, m') => (Raise e, m')
  end.

End SchemaCache.

(** ** [utils/metrics.py]: the collector's store of samples *)

Module MetricsCollector.
Section Samples.
Context {V : Type}.

(** [record_metric]: [self._metrics[name].append(value)] on a
    [defaultdict(list)]. *)
Definition record_metric (name : string) (value : V) (metrics : gmap string (list V))
  : gmap string (list V) :=
  <[name := default [] (metrics !! name) ++ [value]]> metrics.

(** [get_metric]: [self._metrics.get(name, [])]. *)
Definition get_metric (name : string) (metrics : gmap string (list V)) : list V :=
  default [] (metrics !! name).

(** [clear_metrics] *)
Definition clear_metrics (metrics : gmap string (list V)) : gmap string (list V) := ∅.

(** A run of [record_metric] calls, oldest first. *)
Definition record_all (samples : list (string * V)) (metrics : gmap string (list V))
  : gmap string (list V) :=
  foldl (fun m sample => record_metric sample.1 sample.2 m) metrics samples.

(** The values recorded under [name], in recording order. *)
Definition samples_of (name : string) (samples : list (string * V)) : list V :=
  omap (fun sample => if decide (sample.1 = name) then Some sample.2 else None) samples.

End Samples.
End MetricsCollector.

(** * Properties *)

(** ** Generic facts about computations *)

Section IoFacts.
Context {A B : Type}.

Lemma outcome_bind (m : io A) (f : A -> io B) :
  outcome (m ≫= f) =
  match outcome m with
  | Ok a => outcome (f a)
  | Raise e => Raise e
  end.
Proof. unfold mbind, io_bind. destruct (outcome m); reflexivity. Qed.

Lemma log_bind (m : io A) (f : A -> io B) :
  log (m ≫= f) =
  match outcome m with
  | Ok a => log m ++ log (f a)
  | Raise _ => log m
  end.
Proof. unfold mbind, io_bind. destruct (outcome m); reflexivity. Qed.

Lemma outcome_try (body : io A) (handler : exn -> io A) :
  outcome (try_io body handler) =
  match outcome body with
  | Ok a => Ok a
  | Raise e => outcome (handler e)
  end.
Proof. unfold try_io. destruct (outcome body) eqn:E; simpl; auto. Qed.

Lemma log_try (body : io A) (handler : exn -> io A) :
  log (try_io body handler) =
  match outcome body with
  | Ok a => log body
  | Raise e => log body ++ log (handler e)
  end.
Proof. unfold try_io. destruct (outcome body); reflexivity. Qed.

Lemma log_lift (r : result A) : log (lift r) = [].
Proof. reflexivity. Qed.

Lemma outcome_lift (r : result A) : outcome (lift r) = r.
Proof. reflexivity. Qed.

End IoFacts.

(** Unfold the plumbing of computations. *)
Ltac io_unfold :=
  unfold try_io, mbind, io_bind, result_bind, mret, io_ret, result_ret,
         io_raise, lift, emit, raise in *;
  simpl in *.

(** Split a membership in an explicit log into its cases. *)
Ltac in_log H :=
  simpl in H;
  repeat match type of H with
         | _ ∈ [] => inversion H
         | _ ∈ _ :: _ => apply elem_of_cons in H as [H|H]
         end.

(** ** The validator *)

Section Validator.
Import QueryProcessor SecurityValidator.

(** Only the accepting exit of the token walk answers [true], and it does
    so with an empty reason. *)
Lemma validate_sql_accepts_empty_reason sql reason :
  validate_sql sql = Ok (true, reason) -> reason = "".
Proof.
  unfold validate_sql, try_except, validate_sql_try, mbind, result_bind.
  destruct (validate_sql_injection sql) as [ok|e].
  - destruct (negb _); [discriminate|].
    destruct (check_words _ _); [discriminate|]. congruence.
  - unfold validate_sql_except. destruct (exn_cls e); discriminate.
Qed.

(** Whatever the [try] block raises, the handlers answer with a rejection. *)
Lemma validate_sql_except_rejects e :
  exists reason, validate_sql_except e = Ok (false, reason).
Proof. unfold validate_sql_except. destruct (exn_cls e); eauto. Qed.

(** Gate A raises nothing but [SecurityError]. *)
Lemma scan_raises_security patterns text e :
  scan patterns text = Raise e -> exn_cls e = SecurityError.
Proof.
  induction patterns as [|[source r] patterns IH]; simpl; [discriminate|].
  destruct (Re.search _ _ _); [|exact IH].
  unfold raise. intros [= <-]. reflexivity.
Qed.

(** C9: [validate_sql] answers every string with a (bool, reason) pair and
    raises nothing: when Gate A raises its [SecurityError] the answer is
    [(False, str(e))], and any exception whatsoever escaping the [try]
    block is turned into a [(False, reason)] verdict by the handlers. *)
Theorem validate_sql_total (sql : string) :
  (exists b reason, validate_sql sql = Ok (b, reason)) /\
  match validate_sql_injection sql with
  | Raise e => exn_cls e = SecurityError /\ validate_sql sql = Ok (false, exn_msg e)
  | Ok _ => True
  end /\
  (forall e : exn, exists reason,
      try_except (Raise e) validate_sql_except = Ok (false, reason)).
Proof.
  split; [|split].
  - unfold validate_sql, try_except.
    destruct (validate_sql_try sql) as [[b reason]|e]; [eauto|].
    destruct (validate_sql_except_rejects e) as [reason ->]. eauto.
  - destruct (validate_sql_injection sql) as [ok|e] eqn:E; [exact I|].
    pose proof (scan_raises_security _ _ _ E) as Hcls. split; [exact Hcls|].
    unfold validate_sql, validate_sql_try, mbind, result_bind. rewrite E. simpl.
    unfold validate_sql_except. rewrite Hcls. reflexivity.
  - intros e. simpl. apply validate_sql_except_rejects.
Qed.

(** C6: the validator accepts the statement that selects the bare
    aggregate-star count from [orders]: Gate A erases the aggregate call
    before its denylist scan and raises nothing, and Gate B's walk skips the
    call from [COUNT] to the closing parenthesis. *)
Theorem count_star_accepted :
  validate_sql "SELECT COUNT(*) FROM orders" = Ok (true, "") /\
  query_to_check "SELECT COUNT(*) FROM orders" = "SELECT  FROM orders" /\
  validate_sql_injection "SELECT COUNT(*) FROM orders" = Ok true /\
  split_words "SELECT COUNT(*)" = ["SELECT"; "COUNT"; "("; "*"; ")"] /\
  check_words false ["COUNT"; "("; "*"; ")"] = check_words true ["("; "*"; ")"] /\
  check_words false ["SELECT"; "COUNT"; "("; "*"; ")"] = None.
Proof. vm_compute. repeat split; reflexivity. Qed.

End Validator.

(** ** The completion client *)

Section CompletionClient.
Import LocalLLMClient.

(** Whatever the token count, the text handed to the model is the template
    around the prompt as it was passed in: [wrapped_prompt] is built before
    the truncation and never rebuilt. *)
Lemma generate_sql_sends_original (c : client) (prompt : string) text n stop :
  LlmCall text n stop ∈ log (generate_sql c prompt) ->
  text = instruction_template prompt.
Proof.
  unfold generate_sql. io_unfold.
  destruct (negb (is_loaded c) && negb _); simpl; [intros H; in_log H|].
  destruct (tokenize c prompt) as [encoded|e]; simpl; [|intros H; in_log H].
  destruct (truncated_prompt c prompt encoded) as [p|e]; simpl; [|intros H; in_log H].
  destruct (llm c (instruction_template prompt)); simpl;
    intros H; in_log H; congruence.
Qed.

(** C2 (the code departs from the specification): on a prompt of 15361 tokens the
    truncation step does compute the 15360-token text, yet the single text
    sent to the model is the template around the whole, untruncated prompt,
    which differs from the template around the truncated one. *)
Theorem truncated_prompt_not_sent :
  truncated_prompt (char_model true "") long_prompt (char_tokens long_prompt)
    = Ok (copies (Z.to_nat 15360) "a") /\
  log (generate_sql (char_model true "") long_prompt)
    = [LlmCall (instruction_template long_prompt) 1024 stop_sequences] /\
  instruction_template long_prompt
    <> instruction_template (copies (Z.to_nat 15360) "a").
Proof.
  split; [vm_compute; reflexivity|].
  split; [vm_compute; reflexivity|].
  intros H.
  apply (f_equal String.length) in H.
  vm_compute in H. discriminate H.
Qed.

End CompletionClient.

(** ** The orchestrator *)

Section Orchestrator.
Import DatabaseSchemaManager LocalLLMClient QueryExecutor OfflineRAGAgent.

(** [execute_query] returns only success dictionaries. *)
Lemma execute_query_success b sql x :
  outcome (execute_query b sql) = Ok x -> exec_status x = "success".
Proof.
  unfold execute_query. io_unfold.
  destruct (store b sql) as [fetched|e]; simpl.
  - intros [= <-]. reflexivity.
  - destruct (PyStr.contains _ _); discriminate.
Qed.

Lemma execute_query_log b sql ev :
  ev ∈ log (execute_query b sql) -> ev = StoreExecute sql.
Proof.
  unfold execute_query. io_unfold.
  destruct (store b sql) as [fetched|e]; simpl.
  - intros H. in_log H. exact H.
  - destruct (PyStr.contains _ _); simpl; intros H; in_log H; exact H.
Qed.

(** On a success dictionary [format_results] answers with a message and
    with one of two statuses. *)
Lemma format_results_status b x :
  exec_status x = "success" ->
  (fmt_status (format_results b x) = "success" \/
   fmt_status (format_results b x) = "error") /\
  exists m, fmt_message (format_results b x) = Some m.
Proof.
  intros Hx. unfold format_results. rewrite Hx. simpl.
  destruct (dataframe b _ _); simpl; eauto.
Qed.

(** The three ways the [try] block of [process_query] returns. *)
Lemma process_query_try_returns a q r :
  outcome (process_query_try a q) = Ok r ->
  r = brief "pending" "Model loading timeout. Please try again." q \/
  (exists s reason,
      QueryProcessor.validate_sql s = Ok (false, reason) /\
      r = {| status := "error"; message := "Invalid SQL: " +:+ reason;
             user_query := q; sql := Some s; results := Some NoResults;
             columns := None; summary := None; metrics := None |}) \/
  (exists s x m,
      QueryProcessor.validate_sql s = Ok (true, "") /\
      outcome (execute_query (backend_of a) s) = Ok x /\
      fmt_message (format_results (backend_of a) x) = Some m /\
      r = {| status := fmt_status (format_results (backend_of a) x);
             message := m; user_query := q; sql := Some s;
             results := Some (Results (fmt_data (format_results (backend_of a) x)));
             columns := Some (fmt_columns (format_results (backend_of a) x));
             summary := Some (fmt_summary (format_results (backend_of a) x));
             metrics := Some ["processing_time"] |}).
Proof.
  unfold process_query_try.
  rewrite outcome_bind.
  destruct (outcome (lift (QueryValidator.validate_query q))); [|discriminate].
  set (waited := if negb (is_loaded (llm_client a)) then _ else _).
  destruct (negb (fst waited)).
  { intros [= <-]. left. reflexivity. }
  rewrite outcome_bind.
  destruct (outcome (generate_query a (snd waited) q)) as [s|e]; [|discriminate].
  rewrite outcome_bind. unfold lift at 1. simpl outcome at 1.
  destruct (QueryProcessor.validate_sql s) as [[valid reason]|e] eqn:V; [|discriminate].
  destruct valid; simpl negb; cbv iota.
  - pose proof (validate_sql_accepts_empty_reason _ _ V) as ->.
    rewrite outcome_bind.
    destruct (outcome (execute_query (backend_of a) s)) as [x|e] eqn:X; [|discriminate].
    rewrite outcome_bind. unfold lift at 1. simpl outcome at 1.
    destruct (fmt_message (format_results (backend_of a) x)) as [m|] eqn:M;
      simpl; [|discriminate].
    intros [= <-]. right. right. exists s, x, m. auto.
  - intros [= <-]. right. left. exists s, reason. auto.
Qed.

(** C1: a response with status [success] carries an [sql] string on which
    [validate_sql] answers [(True, "")]; none is returned for SQL that did
    not pass the validator. *)
Theorem success_sql_validated a (q : string) (r : response) :
  outcome (process_query a q) = Ok r ->
  status r = "success" ->
  exists s, sql r = Some s /\ QueryProcessor.validate_sql s = Ok (true, "").
Proof.
  unfold process_query. rewrite outcome_try.
  destruct (outcome (process_query_try a q)) as [r'|e] eqn:E.
  - intros [= <-] Hs.
    destruct (process_query_try_returns _ _ _ E)
      as [-> | [(s & reason & _ & ->) | (s & x & m & V & _ & _ & ->)]];
      simpl in *; try discriminate.
    exists s. auto.
  - unfold process_query_except.
    destruct (exn_cls e); simpl; intros [= <-]; discriminate.
Qed.

(** C3: [process_query] returns a response for every question, its status
    is one of [success], [pending], [error], and nothing is raised: an
    exception of any class escaping the [try] block becomes an [error]
    response whose message ends with the exception's text. *)
Theorem process_query_never_raises a (q : string) :
  exists r,
    outcome (process_query a q) = Ok r /\
    (status r = "success" \/ status r = "pending" \/ status r = "error") /\
    (forall e, outcome (process_query_try a q) = Raise e ->
       status r = "error" /\ user_query r = q /\
       exists prefix, message r = prefix +:+ exn_msg e).
Proof.
  unfold process_query. rewrite outcome_try.
  destruct (outcome (process_query_try a q)) as [r|e] eqn:E.
  - exists r. split; [reflexivity|]. split; [|discriminate].
    destruct (process_query_try_returns _ _ _ E)
      as [-> | [(s & reason & _ & ->) | (s & x & m & _ & X & _ & ->)]];
      simpl; auto.
    destruct (format_results_status (backend_of a) x (execute_query_success _ _ _ X))
      as [[->| ->] _]; auto.
  - unfold process_query_except.
    destruct (exn_cls e) eqn:C; simpl; eexists; (split; [reflexivity|]);
      (split; [auto|]); intros e' [= <-]; simpl; eauto.
Qed.

(** C4: when the question passes input validation and the model is neither
    loaded nor loaded once the wait of [QUERY_TIMEOUT] seconds is over,
    [process_query] returns the [pending] response: status, message and the
    echoed question, and nothing else. *)
Theorem model_not_ready_pending a (q : string) :
  QueryValidator.validate_query q = Ok true ->
  is_loaded (llm_client a) = false ->
  load_done_within (llm_client a) Config.QUERY_TIMEOUT = false ->
  process_query a q =
    IO [] (Ok {| status := "pending";
                 message := "Model loading timeout. Please try again.";
                 user_query := q;
                 sql := None; results := None; columns := None;
                 summary := None; metrics := None |}).
Proof.
  intros Hv Hl Hw.
  unfold process_query, process_query_try, wait_for_model.
  rewrite Hv, Hl, Hw. reflexivity.
Qed.

(** The model is called by [generate_sql] only, on the prompt built from the
    question [generate_query] was given. *)
Lemma generate_query_log a c (q : string) text n stop :
  LlmCall text n stop ∈ log (generate_query a c q) ->
  exists s, get_schema a = Ok s /\
    text = instruction_template
             (QueryProcessor._create_sql_generation_prompt q (filter_relevant_tables s q)).
Proof.
  unfold generate_query.
  destruct (PyStr.is_empty q); [io_unfold; intros H; in_log H|].
  destruct (get_schema a) as [s|e]; [|io_unfold; intros H; in_log H].
  intros H. exists s. split; [reflexivity|].
  apply (generate_sql_sends_original c _ text n stop).
  revert H. io_unfold.
  destruct (outcome (generate_sql c _)); simpl; [|rewrite app_nil_r; auto].
  destruct (QueryProcessor.validate_sql _) as [[valid reason]|e]; simpl.
  - destruct valid; simpl; rewrite ?app_nil_r; auto.
  - rewrite !app_nil_r; auto.
Qed.

Lemma process_query_except_log (q : string) e : log (process_query_except q e) = [].
Proof. unfold process_query_except. destruct (exn_cls e); reflexivity. Qed.

Lemma process_query_log a (q : string) text n stop :
  LlmCall text n stop ∈ log (process_query a q) ->
  exists c, LlmCall text n stop ∈ log (generate_query a c q).
Proof.
  unfold process_query. rewrite log_try.
  assert (LlmCall text n stop ∈ log (process_query_try a q) ->
          exists c, LlmCall text n stop ∈ log (generate_query a c q)) as Htry.
  { unfold process_query_try. rewrite log_bind, log_lift, outcome_lift.
    destruct (QueryValidator.validate_query q); [|intros H; in_log H].
    set (waited := if negb (is_loaded (llm_client a)) then _ else _).
    rewrite app_nil_l. destruct (negb (fst waited)); [intros H; in_log H|].
    rewrite log_bind.
    destruct (outcome (generate_query a (snd waited) q)) as [s|e]; [|eauto].
    intros H. apply elem_of_app in H as [H|H]; [eauto|].
    exfalso. revert H. rewrite log_bind, log_lift, outcome_lift.
    destruct (QueryProcessor.validate_sql s) as [[valid reason]|e];
      [|intros H; in_log H].
    rewrite app_nil_l.
    destruct valid; simpl negb; cbv iota; [|intros H; in_log H].
    rewrite log_bind.
    destruct (outcome (execute_query (backend_of a) s)).
    - intros H. apply elem_of_app in H as [H|H].
      + apply execute_query_log in H. discriminate.
      + revert H. rewrite log_bind, log_lift, outcome_lift.
        destruct (lookup_key _ _); intros H; in_log H.
    - intros H. apply execute_query_log in H. discriminate. }
  destruct (outcome (process_query_try a q)); [exact Htry|].
  rewrite process_query_except_log, app_nil_r. exact Htry.
Qed.

(** C10: sanitization stays inside [validate_query], which runs its length
    and injection checks on the sanitized copy and hands back no string;
    the response echoes the caller's question as it was passed in, and
    every text sent to the model is the instruction template around the
    prompt built from that same question and the schema filtered by it. *)
Theorem question_forwarded_unmodified a (q : string) :
  QueryValidator.validate_query q =
    (SecurityValidator.validate_query_length (SecurityValidator.sanitize_input q) 1000 ;;
     SecurityValidator.validate_sql_injection (SecurityValidator.sanitize_input q) ;;
     Ok true) /\
  (exists r, outcome (process_query a q) = Ok r /\ user_query r = q) /\
  (forall text n stop,
      LlmCall text n stop ∈ log (process_query a q) ->
      exists s, get_schema a = Ok s /\
        text = instruction_template
                 (QueryProcessor._create_sql_generation_prompt q
                    (filter_relevant_tables s q))).
Proof.
  split; [reflexivity|]. split.
  - unfold process_query. rewrite outcome_try.
    destruct (outcome (process_query_try a q)) as [r|e] eqn:E.
    + exists r. split; [reflexivity|].
      destruct (process_query_try_returns _ _ _ E)
        as [-> | [(s & reason & _ & ->) | (s & x & m & _ & _ & _ & ->)]];
        reflexivity.
    + unfold process_query_except.
      destruct (exn_cls e); simpl; eexists; split; reflexivity.
  - intros text n stop H.
    apply process_query_log in H as [c H].
    exact (generate_query_log _ _ _ _ _ _ H).
Qed.

End Orchestrator.

(** ** The orchestrator at work *)

Section Runs.
Import OfflineRAGAgent.

(** A run of the whole pipeline that ends in [success]. *)
Lemma success_sql_validated_witness :
  exists s,
    sql {| status := "success"; message := "Query executed successfully";
           user_query := "List customers"; sql := Some "SELECT id FROM customers";
           results := Some (Results (QueryExecutor.Records [[("id", QueryExecutor.SqlText "c1")]]));
           columns := Some ["id"];
           summary := Some (Some {| QueryExecutor.row_count := 1;
                                    QueryExecutor.column_count := 1;
                                    QueryExecutor.column_types := [("id", "object")] |});
           metrics := Some ["processing_time"] |} = Some s /\
    QueryProcessor.validate_sql s = Ok (true, "").
Proof.
  apply (success_sql_validated (demo_agent true fenced_completion) "List customers");
    vm_compute; reflexivity.
Defined.

(** A run with the model still loading. *)
Lemma model_not_ready_pending_witness :
  process_query (demo_agent false fenced_completion) "List customers" =
    IO [] (Ok {| status := "pending";
                 message := "Model loading timeout. Please try again.";
                 user_query := "List customers";
                 sql := None; results := None; columns := None;
                 summary := None; metrics := None |}).
Proof.
  apply (model_not_ready_pending (demo_agent false fenced_completion) "List customers");
    vm_compute; reflexivity.
Defined.

(** The statement the model was asked to change data with is refused. *)
Example update_statement_refused :
  status <$> outcome (process_query (demo_agent true "UPDATE customers SET a = 1")
                        "Remove Mobile to Salesforce from customers")
  = Ok "error".
Proof. vm_compute. reflexivity. Qed.

(** A question with a control character: the check runs on the sanitized
    copy, the echo and the prompt keep the character. *)
Example control_character_kept :
  let q := "List" +:+ String "009" "customers" in
  SecurityValidator.sanitize_input q = "Listcustomers" /\
  user_query <$> outcome (process_query (demo_agent true fenced_completion) q) = Ok q.
Proof. vm_compute. split; reflexivity. Qed.

End Runs.

(** ** The schema catalog *)

Section SchemaCatalog.
Import DatabaseSchemaManager Aux.

Lemma append_nil (s : string) : "" +:+ s = s.
Proof. reflexivity. Qed.

Lemma append_cons (c : ascii) (s1 s2 : string) :
  String c s1 +:+ s2 = String c (s1 +:+ s2).
Proof. reflexivity. Qed.

Lemma append_assoc (s1 s2 s3 : string) : (s1 +:+ s2) +:+ s3 = s1 +:+ (s2 +:+ s3).
Proof.
  induction s1 as [|c s1 IH]; [reflexivity|].
  rewrite !append_cons. f_equal. exact IH.
Qed.

Lemma append_empty_r (s : string) : s +:+ "" = s.
Proof.
  induction s as [|c s IH]; [reflexivity|].
  rewrite append_cons. f_equal. exact IH.
Qed.

Lemma eqb_char_eq (a b : ascii) : PyStr.eqb_char a b = true <-> a = b.
Proof. apply Ascii.eqb_eq. Qed.

Lemma startswith_spec (p s : string) :
  PyStr.startswith p s = true <-> exists post, s = p +:+ post.
Proof.
  revert s. induction p as [|a p IH]; intros s; simpl.
  - split; eauto.
  - destruct s as [|b s].
    + split; [discriminate|]. intros [post H]. discriminate.
    + rewrite andb_true_iff, eqb_char_eq, IH. split.
      * intros [-> [post ->]]. eauto.
      * intros [post H]. rewrite append_cons in H. injection H as -> ->. eauto.
Qed.

(** [sub in s] holds exactly when [sub] occurs in [s]. *)
Lemma contains_spec (sub s : string) :
  PyStr.contains sub s = true <-> Spec.substring sub s.
Proof.
  unfold Spec.substring. induction s as [|c s IH].
  - simpl. rewrite orb_false_r, startswith_spec. split.
    + intros [post ->]. exists "", post. reflexivity.
    + intros (pre & post & H). destruct pre; [eauto|discriminate].
  - cbn [PyStr.contains]. rewrite orb_true_iff, startswith_spec, IH. split.
    + intros [[post ->] | (pre & post & ->)].
      * exists "", post. reflexivity.
      * exists (String c pre), post. reflexivity.
    + intros (pre & post & H). destruct pre as [|a pre].
      * left. eauto.
      * right. rewrite append_cons in H. injection H as -> ->. eauto.
Qed.

(** The names collected by the first loop. *)
Lemma mentioned_spec ql ts (acc : gset string) (x : string) :
  x ∈ mentioned ql ts acc <->
  x ∈ acc \/ exists t, t ∈ ts /\ name t = x /\ PyStr.contains (PyStr.lower (name t)) ql = true.
Proof.
  revert acc. induction ts as [|t ts IH]; intros acc; simpl.
  - split; [auto|]. intros [H | (t & H & _)]; [exact H|inversion H].
  - destruct (PyStr.contains (PyStr.lower (name t)) ql) eqn:E; rewrite IH.
    + rewrite elem_of_union, elem_of_singleton. split.
      * intros [[H | ->] | (t' & H & Hn & Hc)]; [auto| |].
        -- right. exists t. split; [left|]; auto.
        -- right. exists t'. split; [right|]; auto.
      * intros [H | (t' & H & Hn & Hc)]; [auto|].
        apply elem_of_cons in H as [-> | H]; [auto|].
        right. eauto.
    + split.
      * intros [H | (t' & H & Hn & Hc)]; [auto|].
        right. exists t'. split; [right|]; auto.
      * intros [H | (t' & H & Hn & Hc)]; [auto|].
        apply elem_of_cons in H as [-> | H]; [congruence|].
        right. eauto.
Qed.

Lemma render_spec (relevant : gset string) ts formatted :
  render relevant ts formatted =
  formatted +:+ lines (filter (fun t => name t ∈ relevant) ts).
Proof.
  revert formatted. induction ts as [|t ts IH]; intros formatted; simpl.
  - now rewrite append_empty_r.
  - rewrite filter_cons. destruct (decide (name t ∈ relevant)); rewrite IH.
    + simpl. apply append_assoc.
    + reflexivity.
Qed.

(** Two filters of one list agree when their predicates agree on its
    elements. *)
Lemma filter_agree {A} (P Q : A -> Prop) `{!forall x, Decision (P x)}
    `{!forall x, Decision (Q x)} (l : list A) :
  (forall x, x ∈ l -> (P x <-> Q x)) -> filter P l = filter Q l.
Proof.
  induction l as [|a l IH]; intros Hx; [reflexivity|].
  rewrite !filter_cons.
  assert (P a <-> Q a) as Ha by (apply Hx; left).
  assert (filter P l = filter Q l) as Hl
    by (apply IH; intros x Hin; apply Hx; now right).
  destruct (decide (P a)), (decide (Q a)); rewrite Hl; tauto || reflexivity.
Qed.

(** C8: for every schema and question, (1) the first loop collects the
    name of a table of the schema if and only if the table's lowercased
    name occurs in the lowercased question; (2) a table of the schema is
    shown if and only if it is mentioned in that sense or no table of the
    schema is mentioned and its name is one of [customer], [countries],
    [prospect], [visit]; (3) the text returned is the line
    [### DATABASE SCHEMA], an empty line, and then, for each table shown, in
    schema order and as often as the schema lists it, the line
    [name(col, ..., col);] where each [col] is the column's name, type and
    the flags [PK] and [NN] that are set, blank-separated and trimmed;
    (4) when no table of the schema is mentioned, that text holds exactly
    the lines of the tables of the schema whose name is one of the four
    default names. *)
Theorem relevance_filter (s : schema) (q : string) :
  let collected := mentioned (PyStr.lower q) (tables s) ∅ in
  let defaults := ["customer"; "countries"; "prospect"; "visit"] in
  let shown := filter (fun t => name t ∈ relevant_tables s q) (tables s) in
  let nl := String "010" EmptyString in
  let column_text := fun c : column =>
    PyStr.strip (col_name c +:+ " " +:+ col_type c +:+ " " +:+
                 match is_primary_key c, not_null c with
                 | true, true => "PK NN"
                 | true, false => "PK"
                 | false, true => "NN"
                 | false, false => EmptyString
                 end) in
  let table_text := fun t : table =>
    name t +:+ "(" +:+ String.concat ", " (List.map column_text (columns t)) +:+
    ");" +:+ nl in
  let rendered := fun ts : list table =>
    "### DATABASE SCHEMA" +:+ nl +:+ nl +:+
    foldr (fun t acc => table_text t +:+ acc) EmptyString ts in
  (forall t, t ∈ tables s -> (name t ∈ collected <-> Spec.mentions q t)) /\
  (forall t, t ∈ tables s ->
     (t ∈ shown <->
      Spec.mentions q t \/
      ((forall t', t' ∈ tables s -> ~ Spec.mentions q t') /\ name t ∈ defaults))) /\
  filter_relevant_tables s q = rendered shown /\
  ((forall t, t ∈ tables s -> ~ Spec.mentions q t) ->
     filter_relevant_tables s q =
     rendered (filter (fun t => name t ∈ defaults) (tables s))).
Proof.
  intros collected defaults shown nl column_text table_text rendered.
  assert (forall x, x ∈ collected <->
            exists t, t ∈ tables s /\ name t = x /\ Spec.mentions q t) as Hm.
  { intros x. unfold collected. rewrite mentioned_spec. unfold Spec.mentions. split.
    - intros [H | (t & H & Hn & Hc)]; [set_solver|].
      exists t. rewrite <- contains_spec. auto.
    - intros (t & H & Hn & Hc). right. exists t. rewrite contains_spec. auto. }
  assert ((forall t, t ∈ tables s -> ~ Spec.mentions q t) <-> collected = ∅) as Hnone.
  { split.
    - intros H. apply set_eq. intros x. rewrite Hm. split; [|set_solver].
      intros (t & Ht & _ & M). exfalso. exact (H t Ht M).
    - intros E t Ht M. assert (name t ∈ collected) as Hin by (apply Hm; eauto).
      rewrite E in Hin. set_solver. }
  assert (forall t, t ∈ tables s ->
            (name t ∈ relevant_tables s q <->
             Spec.mentions q t \/ (collected = ∅ /\ name t ∈ defaults))) as Hrel.
  { intros t Ht. unfold relevant_tables. cbv zeta. fold collected.
    destruct (decide (collected = ∅)) as [E|N].
    - rewrite elem_of_union, elem_of_list_to_set, list_elem_of_filter, E. split.
      + intros [H | [_ H]]; [set_solver|]. right. split; [reflexivity|exact H].
      + intros [M | [_ D]].
        * exfalso. exact (proj2 Hnone E t Ht M).
        * right. split; [|exact D]. apply list_elem_of_fmap. eauto.
    - rewrite Hm. split.
      + intros (t' & _ & Hn & M). left. unfold Spec.mentions in *. now rewrite <- Hn.
      + intros [M | [E _]]; [eauto|contradiction]. }
  assert (forall ts, header +:+ lines ts = rendered ts) as Htext.
  { intros ts. unfold rendered, header, QueryProcessor.LF, Re.newline.
    rewrite !append_assoc. do 3 f_equal.
    induction ts as [|t ts IH]; [reflexivity|].
    cbn [lines foldr]. unfold lines in IH. rewrite IH. f_equal.
    unfold table_line, table_text, QueryProcessor.LF, Re.newline. do 2 f_equal.
    f_equal.
    assert (forall sep parts, join sep parts = String.concat sep parts) as Hj.
    { intros sep parts. induction parts as [|p [|p' parts] IHp]; [reflexivity..|].
      change (join sep (p :: p' :: parts)) with (p +:+ sep +:+ join sep (p' :: parts)).
      rewrite IHp. reflexivity. }
    rewrite Hj. f_equal. apply List.map_ext. intros c.
    unfold column_def, column_text.
    destruct (is_primary_key c), (not_null c); reflexivity. }
  split; [|split; [|split]].
  - intros t Ht. rewrite Hm. split.
    + intros (t' & _ & Hn & M). unfold Spec.mentions in *. now rewrite <- Hn.
    + intros M. eauto.
  - intros t Ht. unfold shown. rewrite list_elem_of_filter, Hrel, Hnone by exact Ht.
    tauto.
  - unfold filter_relevant_tables. rewrite render_spec. apply Htext.
  - intros Hno. unfold filter_relevant_tables. rewrite render_spec, Htext. f_equal.
    apply filter_agree. intros t Ht. rewrite Hrel by exact Ht. split.
    + intros [M | [_ D]]; [exfalso; exact (Hno t Ht M)|exact D].
    + intros D. right. split; [apply Hnone, Hno|exact D].
Qed.

(** A question that names [customers] gets the line of that table alone,
    columns and flags included; a question that names no table of the
    schema gets the line of [visit], the one default name the schema has. *)
Lemma relevance_filter_witness :
  filter_relevant_tables demo_schema "How many customers are there?" =
    "### DATABASE SCHEMA" +:+ QueryProcessor.LF +:+ QueryProcessor.LF +:+
    "customers(id TEXT PK NN, country TEXT);" +:+ QueryProcessor.LF /\
  filter_relevant_tables demo_schema "List people in France" =
    "### DATABASE SCHEMA" +:+ QueryProcessor.LF +:+ QueryProcessor.LF +:+
    "visit();" +:+ QueryProcessor.LF.
Proof.
  split.
  - destruct (relevance_filter demo_schema "How many customers are there?")
      as (_ & _ & H & _).
    rewrite H. vm_compute. reflexivity.
  - destruct (relevance_filter demo_schema "List people in France")
      as (_ & _ & _ & H).
    rewrite H; [vm_compute; reflexivity|].
    intros t Ht. unfold Spec.mentions. rewrite <- contains_spec.
    repeat (apply elem_of_cons in Ht as [-> | Ht]; [vm_compute; discriminate|]).
    inversion Ht.
Defined.

(** The question of the specification's example names no table of a schema
    with [customer] and [orders]: the fallback shows [customer] alone. *)
Example fallback_for_france :
  filter_relevant_tables
    {| tables := [ {| name := "customer"; columns := [] |};
                   {| name := "orders"; columns := [] |} ];
       relationships := [] |}
    "List people in France"
  = header +:+ "customer();" +:+ QueryProcessor.LF.
Proof. vm_compute. reflexivity. Qed.

End SchemaCatalog.

(** ** Gate A and the semicolon *)

Section GateA.
Import Re SecurityValidator Aux.

(** A trailing character that [rstrip] removes leaves no trace. *)
Lemma rstrip_by_snoc (p : ascii -> bool) (s : string) (c : ascii) :
  p c = true -> PyStr.rstrip_by p (s +:+ String c "") = PyStr.rstrip_by p s.
Proof.
  intros Hc. induction s as [|a s IH].
  - rewrite append_nil. simpl. now rewrite Hc.
  - rewrite append_cons. simpl. now rewrite IH.
Qed.

Lemma orelse_some_r (a : option pos) (c : pos) : is_Some (orelse a (Some c)).
Proof. destruct a; simpl; eauto. Qed.

(** A match somewhere in the subject is found by the search. *)
Lemma search_from_finds fl r p (pre s : string) :
  is_Some (match_at fl r (prev_after p pre) s) ->
  is_Some (search_from fl r p (pre +:+ s)).
Proof.
  revert p. induction pre as [|c pre IH]; intros p H.
  - rewrite append_nil. simpl in H. destruct H as [e H].
    destruct s; simpl; rewrite H; eauto.
  - rewrite append_cons. simpl.
    destruct (match_at fl r p (String c (pre +:+ s))); [eauto|].
    apply IH. exact H.
Qed.

(** It matches at a semicolon followed by text at whose start [$] does not
    match. *)
Lemma semicolon_pattern_matches p (post : string) :
  at_eol post = false ->
  is_Some (match_at IGNORECASE semicolon_pattern p (String ";" post)).
Proof.
  intros Hpost. unfold match_at, semicolon_pattern. simpl.
  unfold step. simpl.
  destruct post as [|x post]; [discriminate|].
  cbn [String.length star_loop].
  match goal with
  | |- is_Some (orelse ?a ?b) =>
      assert (b = Some {| prev := Some ";"%char; rest := String x post; cap := None |})
        as ->
  end.
  { cbn [rest]. rewrite Hpost. reflexivity. }
  apply orelse_some_r.
Qed.

Lemma search_semicolon (pre post : string) :
  at_eol post = false ->
  search IGNORECASE semicolon_pattern (pre +:+ ";" +:+ post) = true.
Proof.
  intros Hpost. unfold search.
  change (pre +:+ ";" +:+ post) with (pre +:+ String ";" post).
  destruct (search_from_finds IGNORECASE semicolon_pattern None pre (String ";" post)
              (semicolon_pattern_matches _ _ Hpost)) as [m ->].
  reflexivity.
Qed.

Lemma at_eol_false (post : string) :
  post <> "" -> post <> QueryProcessor.LF -> at_eol post = false.
Proof.
  intros H1 H2. destruct post as [|c [|d post]]; simpl; [congruence| |reflexivity].
  destruct (PyStr.eqb_char c newline) eqn:E; [|reflexivity].
  apply eqb_char_eq in E. subst c. exfalso. apply H2. reflexivity.
Qed.

(** C5, as the code has it: Gate A runs its denylist on the text with all
    trailing semicolons removed and the bare aggregate calls erased, so a
    statement with one more trailing semicolon gets the same verdict; and
    it raises [SecurityError] whenever that text holds a semicolon followed
    by anything but a lone final newline. *)
Theorem gate_a_semicolons (query : string) :
  validate_sql_injection (query +:+ ";") = validate_sql_injection query /\
  (forall pre post : string,
      query_to_check query = pre +:+ ";" +:+ post ->
      post <> "" -> post <> QueryProcessor.LF ->
      exists e, validate_sql_injection query = Raise e /\ exn_cls e = SecurityError).
Proof.
  split.
  - unfold validate_sql_injection, query_to_check, PyStr.rstrip_char.
    rewrite rstrip_by_snoc; reflexivity.
  - intros pre post Hq H1 H2.
    pose proof (search_semicolon pre post (at_eol_false _ H1 H2)) as Hs.
    unfold validate_sql_injection. rewrite Hq.
    unfold dangerous_patterns. cbn [scan].
    fold semicolon_pattern. rewrite Hs. clear Hs.
    destruct (search IGNORECASE _ _); unfold raise; eexists; split; reflexivity.
Qed.

(** C5 in the specification's wording fails on three trailing semicolons:
    with a single one stripped, a semicolon that is not the last character
    remains, yet Gate A raises nothing. *)
Lemma single_strip_counterexample :
  Spec.strip_one_semicolon "SELECT a FROM t;;;" = "SELECT a FROM t;;" /\
  Spec.inner_semicolon (Spec.strip_one_semicolon "SELECT a FROM t;;;") = true /\
  validate_sql_injection "SELECT a FROM t;;;" = Ok true.
Proof. vm_compute. repeat split; reflexivity. Qed.

(** A rejection of a semicolon inside the statement. *)
Lemma gate_a_semicolons_witness :
  exists e, validate_sql_injection "SELECT 1; DROP TABLE t" = Raise e /\
            exn_cls e = SecurityError.
Proof.
  apply (proj2 (gate_a_semicolons "SELECT 1; DROP TABLE t") "SELECT 1" " DROP TABLE t");
    [vm_compute; reflexivity | discriminate | discriminate].
Defined.

(** Two more inputs with a semicolon before the end that Gate A lets
    through: one followed by a final newline, one followed by an aggregate
    call that the erasure removes. *)
Example semicolon_before_final_newline :
  validate_sql_injection ("SELECT a FROM t;" +:+ QueryProcessor.LF) = Ok true.
Proof. vm_compute. reflexivity. Qed.

Example semicolon_before_erased_call :
  validate_sql_injection "SELECT 1;COUNT(*)" = Ok true.
Proof. vm_compute. reflexivity. Qed.

End GateA.

(** ** The extractor on clean SQL *)

Section Extractor.
Import Re QueryProcessor Aux.

Lemma rstrip_by_end (p : ascii -> bool) (s : string) :
  ends_with_by p (PyStr.rstrip_by p s) = false.
Proof.
  induction s as [|c s IH]; [reflexivity|]. simpl.
  destruct (PyStr.rstrip_by p s) as [|d r] eqn:E; simpl.
  - destruct (p c) eqn:Hc; simpl; auto.
  - exact IH.
Qed.

Lemma strip_fixed_end (s : string) :
  PyStr.strip s = s -> ends_with_by PyStr.isspace_char s = false.
Proof. intros <-. apply rstrip_by_end. Qed.

Lemma tail_ok_tail c (t : string) : tail_ok (String c t) -> tail_ok t.
Proof.
  unfold tail_ok. simpl. rewrite orb_false_iff. intros [[_ H1] H2].
  split; [exact H1|]. destruct t; [reflexivity|exact H2].
Qed.

Lemma semicolon_matches_only_itself (x : ascii) :
  chr_matches DOTALL_IGNORECASE ";" x = PyStr.eqb_char x ";".
Proof. destruct x as [[] [] [] [] [] [] [] []]; reflexivity. Qed.

Lemma newline_is_space (x : ascii) :
  PyStr.eqb_char x newline = true -> PyStr.isspace_char x = true.
Proof. intros H. apply eqb_char_eq in H. subst x. reflexivity. Qed.

Lemma statement_end_unfold p (t : string) cp :
  statement_end {| prev := p; rest := t; cap := cp |} =
  match t with
  | String x t' =>
      if PyStr.eqb_char x ";" then Some {| prev := Some x; rest := t'; cap := cp |}
      else if at_eol t then Some {| prev := p; rest := t; cap := cp |} else None
  | EmptyString => Some {| prev := p; rest := t; cap := cp |}
  end.
Proof.
  unfold statement_end. simpl. unfold step. simpl. destruct t as [|x t']; [reflexivity|].
  rewrite semicolon_matches_only_itself.
  destruct (PyStr.eqb_char x ";"); reflexivity.
Qed.

Lemma dot_step k p x (t : string) cp :
  run DOTALL_IGNORECASE Dot k {| prev := p; rest := String x t; cap := cp |} =
  k {| prev := Some x; rest := t; cap := cp |}.
Proof. reflexivity. Qed.

Lemma space_step k p x (t : string) cp :
  run DOTALL_IGNORECASE Space k {| prev := p; rest := String x t; cap := cp |} =
  if PyStr.isspace_char x then k {| prev := Some x; rest := t; cap := cp |} else None.
Proof. reflexivity. Qed.

Lemma lazy_body_to_end (t : string) : forall fuel p cp,
  String.length t <= fuel -> tail_ok t ->
  to_end (lazy_loop (run DOTALL_IGNORECASE Dot) statement_end fuel
            {| prev := p; rest := t; cap := cp |}).
Proof.
  induction t as [|x t IH]; intros fuel p cp Hfuel Hok.
  - assert (statement_end {| prev := p; rest := ""; cap := cp |}
            = Some {| prev := p; rest := ""; cap := cp |}) as E
      by apply statement_end_unfold.
    destruct fuel; simpl; rewrite E; eexists; split; reflexivity.
  - destruct fuel as [|fuel]; [simpl in Hfuel; lia|].
    cbn [lazy_loop]. rewrite statement_end_unfold.
    destruct Hok as [Hsemi Hend]. simpl in Hsemi. apply orb_false_iff in Hsemi as [Hx Hin].
    destruct (PyStr.eqb_char x ";") eqn:Ex.
    + simpl in Hx. apply negb_false_iff in Hx. destruct t; [|discriminate].
      simpl. eexists; split; reflexivity.
    + assert (at_eol (String x t) = false) as ->.
      { destruct t as [|y t]; [|reflexivity]. simpl in *.
        destruct (PyStr.eqb_char x newline) eqn:En; [|reflexivity].
        apply newline_is_space in En. congruence. }
      cbn [orelse]. rewrite dot_step. cbn [rest].
      assert (Nat.ltb (String.length t) (String.length (String x t)) = true) as ->
        by (apply Nat.ltb_lt; simpl; lia).
      apply IH; [simpl in Hfuel; lia|].
      apply (tail_ok_tail x). split; [simpl; rewrite Ex; exact Hin|exact Hend].
Qed.

Lemma statement_body_to_end p (t : string) cp :
  tail_ok t -> to_end (statement_body {| prev := p; rest := t; cap := cp |}).
Proof. intros H. apply lazy_body_to_end; [reflexivity|exact H]. Qed.

Lemma space_to_end (fuel : nat) : forall (t : string) p cp,
  tail_ok t ->
  to_end (star_loop (run DOTALL_IGNORECASE Space) statement_body fuel
            {| prev := p; rest := t; cap := cp |}).
Proof.
  induction fuel as [|fuel IH]; intros t p cp Hok.
  - simpl. apply statement_body_to_end. exact Hok.
  - cbn [star_loop].
    destruct t as [|x t].
    + simpl. apply statement_body_to_end. exact Hok.
    + rewrite space_step. cbn [rest]. destruct (PyStr.isspace_char x).
      * assert (Nat.ltb (String.length t) (String.length (String x t)) = true) as ->
          by (apply Nat.ltb_lt; simpl; lia).
        destruct (IH t (Some x) cp (tail_ok_tail _ _ Hok)) as (e & -> & He).
        simpl. eexists; split; [reflexivity|exact He].
      * simpl. apply statement_body_to_end. exact Hok.
Qed.

Lemma after_keyword_to_end p x (t : string) cp :
  PyStr.isspace_char x = true -> tail_ok (String x t) ->
  to_end (after_keyword {| prev := p; rest := String x t; cap := cp |}).
Proof.
  intros Hx Hok. unfold after_keyword.
  change (to_end (run DOTALL_IGNORECASE Space statement_space
                    {| prev := p; rest := String x t; cap := cp |})).
  rewrite space_step, Hx. apply (space_to_end (String.length t)). apply (tail_ok_tail x). exact Hok.
Qed.

(** Without a fence in the subject the first strategy finds nothing. *)
Lemma code_block_needs_fence p (s : string) :
  PyStr.startswith "```" s = false -> match_at DOTALL code_block p s = None.
Proof.
  unfold match_at, code_block. intros H.
  change (chr_matches DOTALL) with PyStr.eqb_char in *.
  destruct s as [|a [|b [|c s]]]; try reflexivity;
    cbn [SecurityValidator.seqs foldr lit run step rest cap PyStr.startswith] in H |- *;
    change (chr_matches DOTALL) with PyStr.eqb_char;
    repeat match goal with
           | |- context [PyStr.eqb_char "`" ?x] => destruct (PyStr.eqb_char "`" x)
           end;
    try reflexivity; discriminate.
Qed.

Lemma search_no_fence (s : string) : forall p,
  PyStr.contains "```" s = false -> search_from DOTALL code_block p s = None.
Proof.
  induction s as [|c s IH]; intros p H; cbn [PyStr.contains] in H;
    apply orb_false_iff in H as [H1 H2]; cbn [search_from];
    rewrite (code_block_needs_fence _ _ H1); [reflexivity|].
  apply IH. exact H2.
Qed.

Lemma search_from_here fl r p (s : string) e :
  match_at fl r p s = Some e -> search_from fl r p s = Some (s, e).
Proof. intros H. destruct s; cbn [search_from]; rewrite H; reflexivity. Qed.

Lemma substring_full (s : string) : String.substring 0 (String.length s) s = s.
Proof. induction s as [|c s IH]; simpl; [reflexivity|]. f_equal. exact IH. Qed.

Lemma orelse_to_end (a b : option pos) : to_end a -> to_end (orelse a b).
Proof. intros (e & -> & He). exists e. auto. Qed.

(** The second strategy reads a clean statement to its end. *)
Lemma sql_statement_to_end (s : string) :
  Spec.begins_with "SELECT" s || Spec.begins_with "WITH" s = true ->
  tail_ok s ->
  to_end (match_at DOTALL_IGNORECASE sql_statement None s).
Proof.
  intros Hkw Hok. unfold match_at, sql_statement.
  change (to_end (run DOTALL_IGNORECASE (Alt (lit "SELECT") (lit "WITH")) after_keyword
                    {| prev := None; rest := s; cap := None |})).
  apply orb_true_iff in Hkw as [H|H]; unfold Spec.begins_with in H;
    apply andb_true_iff in H as [H1 H2].
  - destruct s as [|a1 [|a2 [|a3 [|a4 [|a5 [|a6 [|x t]]]]]]];
      cbn [PyStr.lower PyStr.map PyStr.startswith String.length String.substring] in H1, H2;
      rewrite ?andb_false_r in H1; try discriminate.
    repeat (apply andb_true_iff in H1 as [?E H1]).
    cbn [lit run step rest cap]. unfold chr_matches. cbn [ignorecase DOTALL_IGNORECASE].
    rewrite E, E0, E1, E2, E3, E4.
    apply orelse_to_end, after_keyword_to_end; [exact H2|].
    do 6 (apply tail_ok_tail in Hok). exact Hok.
  - destruct s as [|a1 [|a2 [|a3 [|a4 [|x t]]]]];
      cbn [PyStr.lower PyStr.map PyStr.startswith String.length String.substring] in H1, H2;
      rewrite ?andb_false_r in H1; try discriminate.
    repeat (apply andb_true_iff in H1 as [?E H1]).
    cbn [lit run step rest cap]. unfold chr_matches. cbn [ignorecase DOTALL_IGNORECASE].
    rewrite E, E0, E1, E2.
    apply eqb_char_eq in E. rewrite <- E.
    change (PyStr.eqb_char (PyStr.lower_char "S") (PyStr.lower_char "W")) with false.
    cbn [orelse].
    apply after_keyword_to_end; [exact H2|].
    do 4 (apply tail_ok_tail in Hok). exact Hok.
Qed.

(** C7, as the code has it: on a trimmed text without a code fence that
    begins with the keyword [SELECT] or [WITH] and white space, and that
    holds no semicolon except possibly as its last character, the extractor
    returns the text itself. *)
Theorem extract_clean_sql (s : string) :
  Spec.clean_sql s = true ->
  Spec.inner_semicolon s = false ->
  _parse_sql s = s.
Proof.
  unfold Spec.clean_sql. rewrite !andb_true_iff, negb_true_iff.
  intros [[Hstrip Hfence] Hkw] Hsemi.
  apply String.eqb_eq in Hstrip.
  assert (tail_ok s) as Hok by (split; [exact Hsemi|apply strip_fixed_end, Hstrip]).
  destruct (sql_statement_to_end s Hkw Hok) as (e & He & Hrest).
  unfold _parse_sql, first_code_block, first_sql_statement.
  rewrite (search_no_fence s None Hfence), (search_from_here _ _ _ _ _ He).
  unfold matched. cbn [fst snd]. rewrite Hrest.
  cbn [String.length]. rewrite Nat.sub_0_r, substring_full. exact Hstrip.
Qed.

(** C7 in the specification's wording fails on a clean statement with a
    semicolon inside a string literal: the extractor stops at that
    semicolon. *)
Lemma extract_stops_at_semicolon :
  Spec.clean_sql "SELECT a FROM t WHERE b = ';'" = true /\
  _parse_sql "SELECT a FROM t WHERE b = ';'" = "SELECT a FROM t WHERE b = ';" /\
  _parse_sql "SELECT a FROM t WHERE b = ';'" <> "SELECT a FROM t WHERE b = ';'".
Proof. vm_compute. repeat split; try reflexivity. discriminate. Qed.

(** A statement that ends in its only semicolon comes back as it is. *)
Lemma extract_clean_sql_witness :
  _parse_sql "SELECT a FROM t WHERE b = 1;" = "SELECT a FROM t WHERE b = 1;".
Proof. apply extract_clean_sql; vm_compute; reflexivity. Defined.

(** The fenced completion of the specification's example. *)
Example extract_fenced :
  _parse_sql ("```sql" +:+ LF +:+ "SELECT a FROM t" +:+ LF +:+ "```") = "SELECT a FROM t".
Proof. vm_compute. reflexivity. Qed.

End Extractor.

(** ** More on the input checks and the validator *)

Section InputChecks.
Import Re SecurityValidator QueryProcessor.

Lemma filter_forallb (p : ascii -> bool) (s : string) :
  PyStr.forallb p (PyStr.filter p s) = true.
Proof.
  induction s as [|c s IH]; [reflexivity|]. simpl.
  destruct (p c) eqn:E; [simpl; rewrite E; exact IH|exact IH].
Qed.

Lemma filter_fixed (p : ascii -> bool) (s : string) :
  PyStr.forallb p s = true -> PyStr.filter p s = s.
Proof.
  induction s as [|c s IH]; [reflexivity|]. simpl.
  intros H. apply andb_true_iff in H as [Hc Hs]. rewrite Hc, (IH Hs). reflexivity.
Qed.

Lemma forallb_weaken (p q : ascii -> bool) (s : string) :
  (forall c, p c = true -> q c = true) ->
  PyStr.forallb p s = true -> PyStr.forallb q s = true.
Proof.
  intros Hpq. induction s as [|c s IH]; [reflexivity|]. simpl.
  intros H. apply andb_true_iff in H as [Hc Hs]. rewrite (Hpq _ Hc), (IH Hs). reflexivity.
Qed.

Lemma printable_not_nul (c : ascii) :
  Nat.leb 32 (PyStr.ord c) = true -> negb (PyStr.eqb_char c "000") = true.
Proof.
  intros H. destruct (PyStr.eqb_char c "000") eqn:E; [|reflexivity].
  apply eqb_char_eq in E. subst c. discriminate H.
Qed.

(** X1: what [sanitize_input] returns holds no character below code 32;
    sanitizing twice is sanitizing once; and a text without such
    characters comes back unchanged. *)
Theorem sanitize_input_printable (s : string) :
  PyStr.forallb (fun c => Nat.leb 32 (PyStr.ord c)) (sanitize_input s) = true /\
  sanitize_input (sanitize_input s) = sanitize_input s /\
  (PyStr.forallb (fun c => Nat.leb 32 (PyStr.ord c)) s = true -> sanitize_input s = s).
Proof.
  assert (forall t, PyStr.forallb (fun c => Nat.leb 32 (PyStr.ord c)) t = true ->
                    sanitize_input t = t) as Hfix.
  { intros t Ht. unfold sanitize_input.
    rewrite (filter_fixed (fun c => negb (PyStr.eqb_char c "000")) t).
    - apply filter_fixed, Ht.
    - revert Ht. apply forallb_weaken, printable_not_nul. }
  assert (PyStr.forallb (fun c => Nat.leb 32 (PyStr.ord c)) (sanitize_input s) = true) as Hp
    by apply filter_forallb.
  split; [exact Hp|]. split; [apply Hfix, Hp|apply Hfix].
Qed.

Lemma scan_cons source r patterns (text : string) :
  scan ((source, r) :: patterns) text =
  if search IGNORECASE r text
  then raise SecurityError ("Potential SQL injection detected: " +:+ source)
  else scan patterns text.
Proof. reflexivity. Qed.

(** The denylist loop accepts exactly when no pattern matches. *)
Lemma scan_accepts patterns (text : string) :
  scan patterns text = Ok true <->
  forall p, p ∈ patterns -> search IGNORECASE p.2 text = false.
Proof.
  induction patterns as [|[source r] patterns IH]; simpl.
  - split; [|reflexivity]. intros _ p H. inversion H.
  - destruct (search IGNORECASE r text) eqn:E.
    + split; [discriminate|]. intros H. specialize (H (source, r)). simpl in H.
      rewrite E in H. discriminate H. left.
    + rewrite IH. split.
      * intros H p Hp. apply elem_of_cons in Hp as [-> | Hp]; [exact E|auto].
      * intros H p Hp. apply H. right. exact Hp.
Qed.

Lemma scan_ok_true patterns (text : string) b : scan patterns text = Ok b -> b = true.
Proof.
  induction patterns as [|[source r] patterns IH]; simpl; [congruence|].
  destruct (search _ _ _); [discriminate|exact IH].
Qed.

(** When it rejects, it reports the first pattern of the list that matches. *)
Lemma scan_rejects patterns (text : string) e :
  scan patterns text = Raise e ->
  exists before p after,
    patterns = before ++ p :: after /\
    (forall p', p' ∈ before -> search IGNORECASE p'.2 text = false) /\
    search IGNORECASE p.2 text = true /\
    e = {| exn_cls := SecurityError;
           exn_msg := "Potential SQL injection detected: " +:+ p.1 |}.
Proof.
  induction patterns as [|[source r] patterns IH]; simpl; [discriminate|].
  destruct (search IGNORECASE r text) eqn:E.
  - unfold raise. intros [= <-]. exists [], (source, r), patterns.
    repeat split; auto. intros p' H. inversion H.
  - intros H. destruct (IH H) as (before & p & after & -> & Hb & Hp & He).
    exists ((source, r) :: before), p, after. repeat split; auto.
    intros p' Hp'. apply elem_of_cons in Hp' as [-> | Hp']; [exact E|auto].
Qed.

(** X2: Gate A answers [True] exactly when no pattern of the denylist
    matches the prepared text; otherwise it raises a [SecurityError] whose
    message names the first pattern of the list that matches. *)
Theorem gate_a_reports_first_match (query : string) :
  match validate_sql_injection query with
  | Ok b =>
      b = true /\
      forall p, p ∈ dangerous_patterns ->
                search IGNORECASE p.2 (query_to_check query) = false
  | Raise e =>
      exists before p after,
        dangerous_patterns = before ++ p :: after /\
        (forall p', p' ∈ before ->
                    search IGNORECASE p'.2 (query_to_check query) = false) /\
        search IGNORECASE p.2 (query_to_check query) = true /\
        e = {| exn_cls := SecurityError;
               exn_msg := "Potential SQL injection detected: " +:+ p.1 |}
  end.
Proof.
  unfold validate_sql_injection.
  destruct (scan dangerous_patterns (query_to_check query)) as [b|e] eqn:E.
  - pose proof (scan_ok_true _ _ _ E) as ->.
    split; [reflexivity|]. apply scan_accepts, E.
  - apply scan_rejects, E.
Qed.


Lemma check_words_in_call (ws rest : list string) :
  ")" ∉ ws -> check_words true (ws ++ ")" :: rest) = check_words false rest.
Proof.
  induction ws as [|w ws IH]; intros H; simpl.
  - reflexivity.
  - destruct (String.eqb w ")") eqn:E.
    + apply String.eqb_eq in E. subst w. exfalso. apply H. left.
    + simpl. apply IH. intros Hin. apply H. right. exact Hin.
Qed.

Lemma check_words_unclosed (ws : list string) :
  ")" ∉ ws -> check_words true ws = None.
Proof.
  induction ws as [|w ws IH]; intros H; simpl; [reflexivity|].
  destruct (String.eqb w ")") eqn:E.
  - apply String.eqb_eq in E. subst w. exfalso. apply H. left.
  - simpl. apply IH. intros Hin. apply H. right. exact Hin.
Qed.

(** X4: after the name of an aggregate function the walk checks nothing up
    to and including the next closing parenthesis, whatever the words in
    between are; and when no closing parenthesis follows, all the remaining
    words are passed unchecked. *)
Theorem aggregate_arguments_unchecked (agg : string) (args rest : list string) :
  agg ∈ aggregates ->
  ")" ∉ args ->
  check_words false (agg :: args ++ ")" :: rest) = check_words false rest /\
  check_words false (agg :: args) = None.
Proof.
  intros Hagg Hargs.
  assert (quoted agg = false /\ bool_decide (agg ∈ aggregates) = true) as [Hq Hb].
  { split; [|apply bool_decide_eq_true, Hagg].
    unfold aggregates in Hagg. apply elem_of_list_to_set in Hagg.
    repeat (apply elem_of_cons in Hagg as [-> | Hagg]; [reflexivity|]).
    inversion Hagg. }
  cbn [check_words]. rewrite Hq, Hb.
  split; [apply check_words_in_call, Hargs|apply check_words_unclosed, Hargs].
Qed.

Lemma aggregate_arguments_unchecked_witness :
  check_words false ["SUM"; "@#!"; "DROP"; ")"; "X"] = check_words false ["X"] /\
  check_words false ["SUM"; "@#!"; "DROP"] = None.
Proof.
  apply (aggregate_arguments_unchecked "SUM" ["@#!"; "DROP"] ["X"]).
  - vm_compute. reflexivity.
  - intros H. repeat (apply elem_of_cons in H as [H|H]; [discriminate H|]). inversion H.
Defined.

End InputChecks.

(** ** The splitter, the comment pattern, the prompt and the extractor *)

Section Shapes.
Import Re SecurityValidator QueryProcessor Aux Shape.

Lemma forallb_snoc (p : ascii -> bool) (s : string) (c : ascii) :
  PyStr.forallb p (s +:+ String c "") = PyStr.forallb p s && p c.
Proof.
  induction s as [|a s IH].
  - rewrite append_nil. simpl. now rewrite andb_true_r.
  - rewrite append_cons. simpl. rewrite IH. now rewrite andb_assoc.
Qed.

Lemma snoc_not_empty (s : string) (c : ascii) : s +:+ String c "" <> "".
Proof. destruct s; [rewrite append_nil|rewrite append_cons]; discriminate. Qed.

Lemma flush_ok (st : splitter) :
  splitter_ok st ->
  Forall (fun w => w <> "" /\ (w = "(" \/ w = ")" \/ PyStr.forallb not_paren w = true))
         (flush st).
Proof.
  intros [Hw Hc]. unfold flush.
  destruct (current_word st) as [|c w] eqn:E; simpl; [exact Hw|].
  apply Forall_app. split; [exact Hw|]. constructor; [|constructor].
  split; [discriminate|]. right. right. exact Hc.
Qed.

Lemma split_step_ok (st : splitter) (char : ascii) :
  splitter_ok st -> splitter_ok (split_step st char).
Proof.
  intros Hst. pose proof (flush_ok st Hst) as Hf. unfold split_step.
  destruct (PyStr.eqb_char char "(") eqn:E1; [|destruct (PyStr.eqb_char char ")") eqn:E2;
    [|destruct (PyStr.isspace_char char && negb (in_parentheses st))]].
  - split; [|reflexivity]. simpl. apply Forall_app. split; [exact Hf|].
    constructor; [|constructor]. split; [discriminate|auto].
  - split; [|reflexivity]. simpl. apply Forall_app. split; [exact Hf|].
    constructor; [|constructor]. split; [discriminate|auto].
  - split; [exact Hf|reflexivity].
  - destruct Hst as [Hw Hc]. split; [exact Hw|]. simpl.
    rewrite forallb_snoc, Hc. unfold not_paren. rewrite E1, E2. reflexivity.
Qed.

Lemma split_loop_ok (s : string) : forall st,
  splitter_ok st -> splitter_ok (split_loop st s).
Proof.
  induction s as [|c s IH]; intros st H; simpl; [exact H|].
  apply IH, split_step_ok, H.
Qed.

(** X5: no word produced by the splitter is empty, and parentheses always
    stand alone: a word is an opening parenthesis, a closing parenthesis,
    or holds no parenthesis at all. *)
Theorem split_words_shape (select_part w : string) :
  w ∈ split_words select_part ->
  w <> "" /\ (w = "(" \/ w = ")" \/ PyStr.forallb not_paren w = true).
Proof.
  intros H. unfold split_words in H.
  assert (splitter_ok {| words := []; current_word := ""; in_parentheses := false |}) as H0
    by (split; [constructor|reflexivity]).
  pose proof (flush_ok _ (split_loop_ok select_part _ H0)) as Hf.
  rewrite Forall_forall in Hf. apply Hf, H.
Qed.

Lemma split_words_shape_witness :
  "MAX" <> "" /\ ("MAX" = "(" \/ "MAX" = ")" \/ PyStr.forallb not_paren "MAX" = true).
Proof.
  apply (split_words_shape "SELECT MAX(a b)").
  vm_compute. right. left.
Defined.

(** *** The line comment *)

Lemma dash_matches_only_itself (x : ascii) :
  chr_matches IGNORECASE "-" x = PyStr.eqb_char x "-".
Proof. destruct x as [[] [] [] [] [] [] [] []]; reflexivity. Qed.

Lemma single_line_cons (x : ascii) (t : string) :
  not_newline x = true -> single_line t = true -> single_line (String x t) = true.
Proof. intros Hx Ht. destruct t; simpl in *; [reflexivity|]. now rewrite Hx. Qed.

Lemma at_eol_single_line (t : string) : at_eol t = true -> single_line t = true.
Proof. destruct t as [|c [|d t]]; simpl; auto. discriminate. Qed.

Lemma ignorecase_dot_step k p x (t : string) cp :
  run IGNORECASE Dot k {| prev := p; rest := String x t; cap := cp |} =
  if not_newline x then k {| prev := Some x; rest := t; cap := cp |} else None.
Proof. reflexivity. Qed.

Lemma ignorecase_dot_nil k p cp :
  run IGNORECASE Dot k {| prev := p; rest := ""; cap := cp |} = None.
Proof. reflexivity. Qed.

(** Greedy [.*] followed by [$] succeeds exactly on a single line. *)
Lemma comment_tail_matches (t : string) : forall fuel p cp,
  String.length t <= fuel -> single_line t = true ->
  is_Some (star_loop (run IGNORECASE Dot) comment_end fuel
             {| prev := p; rest := t; cap := cp |}).
Proof.
  induction t as [|x t IH]; intros fuel p cp Hfuel Hline.
  - destruct fuel; cbn [star_loop]; [|rewrite ignorecase_dot_nil]; simpl; eauto.
  - destruct fuel as [|fuel]; [simpl in Hfuel; lia|].
    cbn [star_loop]. rewrite ignorecase_dot_step. cbn [rest].
    destruct (not_newline x) eqn:Hx.
    + assert (Nat.ltb (String.length t) (String.length (String x t)) = true) as ->
        by (apply Nat.ltb_lt; simpl; lia).
      assert (single_line t = true) as Ht.
      { destruct t as [|y t]; [reflexivity|]. simpl in Hline. rewrite Hx in Hline.
        exact Hline. }
      destruct (IH fuel (Some x) cp) as [e ->]; [simpl in Hfuel; lia|exact Ht|].
      simpl. eauto.
    + destruct t as [|y t]; [|simpl in Hline; rewrite Hx in Hline; discriminate].
      unfold comment_end. cbn [rest at_eol].
      unfold not_newline in Hx. apply negb_false_iff in Hx. rewrite Hx.
      simpl. eauto.
Qed.

Lemma comment_tail_single_line (fuel : nat) : forall (t : string) p cp,
  is_Some (star_loop (run IGNORECASE Dot) comment_end fuel
             {| prev := p; rest := t; cap := cp |}) ->
  single_line t = true.
Proof.
  induction fuel as [|fuel IH]; intros t p cp H.
  - simpl in H. unfold comment_end in H. cbn [rest] in H.
    destruct (at_eol t) eqn:E; [apply at_eol_single_line, E|].
    destruct H as [e H]. discriminate H.
  - cbn [star_loop] in H. destruct t as [|x t]; [reflexivity|].
    rewrite ignorecase_dot_step in H. cbn [rest] in H.
    destruct (not_newline x) eqn:Hx.
    + destruct (Nat.ltb (String.length t) (String.length (String x t))).
      * destruct (star_loop (run IGNORECASE Dot) comment_end fuel
                    {| prev := Some x; rest := t; cap := cp |}) eqn:E.
        -- apply single_line_cons; [exact Hx|]. apply (IH t (Some x) cp). rewrite E. eauto.
        -- simpl in H. unfold comment_end in H. cbn [rest] in H.
           destruct (at_eol (String x t)) eqn:E'; [apply at_eol_single_line, E'|].
           destruct H as [e H]. discriminate H.
      * simpl in H. unfold comment_end in H. cbn [rest] in H.
        destruct (at_eol (String x t)) eqn:E'; [apply at_eol_single_line, E'|].
        destruct H as [e H]. discriminate H.
    + simpl in H. unfold comment_end in H. cbn [rest] in H.
      destruct (at_eol (String x t)) eqn:E'; [apply at_eol_single_line, E'|].
      destruct H as [e H]. discriminate H.
Qed.

(** A match of [comment_pattern] at a position: two dashes, then one line. *)
Lemma comment_pattern_at p (s : string) :
  is_Some (match_at IGNORECASE comment_pattern p s) <->
  exists post, s = "--" +:+ post /\ single_line post = true.
Proof.
  unfold match_at, comment_pattern.
  change (run IGNORECASE (seqs [lit "--"; Star Dot; Eol]) Some
            {| prev := p; rest := s; cap := None |})
    with (run IGNORECASE (Chr "-")
            (run IGNORECASE (Chr "-")
               (fun c => star_loop (run IGNORECASE Dot) comment_end
                           (String.length (rest c)) c))
            {| prev := p; rest := s; cap := None |}).
  destruct s as [|a [|b post]]; cbn [run step rest cap].
  - split; [intros [e H]; discriminate H|]. intros (post & H & _). discriminate H.
  - destruct (chr_matches IGNORECASE "-" a);
      (split; [intros [e H]; discriminate H|]); intros (post & H & _); discriminate H.
  - rewrite !dash_matches_only_itself.
    destruct (PyStr.eqb_char a "-") eqn:Ea.
    + destruct (PyStr.eqb_char b "-") eqn:Eb.
      * apply eqb_char_eq in Ea, Eb. subst a b. split.
        -- intros H. exists post. split; [reflexivity|].
           exact (comment_tail_single_line _ _ _ _ H).
        -- intros (post' & E & Hl).
           change ("--" +:+ post') with (String "-" (String "-" post')) in E.
           injection E as ->. apply comment_tail_matches; [reflexivity|exact Hl].
      * split; [intros [e H]; discriminate H|].
        intros (post' & E & _).
        change ("--" +:+ post') with (String "-" (String "-" post')) in E.
        injection E as _ -> _. discriminate Eb.
    + split; [intros [e H]; discriminate H|].
      intros (post' & E & _).
      change ("--" +:+ post') with (String "-" (String "-" post')) in E.
      injection E as -> _ _. discriminate Ea.
Qed.

(** A search that succeeds found its match at some position. *)
Lemma search_from_found fl r (s : string) : forall p,
  is_Some (search_from fl r p s) ->
  exists pre t, s = pre +:+ t /\ is_Some (match_at fl r (prev_after p pre) t).
Proof.
  induction s as [|c s IH]; intros p H; cbn [search_from] in H.
  - destruct (match_at fl r p "") eqn:E; [|destruct H as [e H]; discriminate H].
    exists "", "". split; [reflexivity|]. simpl. rewrite E. eauto.
  - destruct (match_at fl r p (String c s)) eqn:E.
    + exists "", (String c s). split; [reflexivity|]. simpl. rewrite E. eauto.
    + destruct (IH _ H) as (pre & t & -> & Ht).
      exists (String c pre), t. split; [reflexivity|exact Ht].
Qed.

Lemma search_comment (text : string) :
  search IGNORECASE comment_pattern text = true <->
  exists pre post, text = pre +:+ "--" +:+ post /\ single_line post = true.
Proof.
  unfold search. split.
  - intros H.
    destruct (search_from IGNORECASE comment_pattern None text) eqn:E; [|discriminate].
    destruct (search_from_found _ _ _ None (ex_intro _ _ E)) as (pre & t & -> & Ht).
    apply comment_pattern_at in Ht as (post & -> & Hl). eauto.
  - intros (pre & post & -> & Hl).
    destruct (search_from_finds IGNORECASE comment_pattern None pre ("--" +:+ post))
      as [m ->]; [|reflexivity].
    apply comment_pattern_at. eauto.
Qed.

(** X3: Gate A rejects a text for its line comment, reporting the first
    pattern of the denylist, exactly when the prepared text holds two
    dashes that are followed by no newline other than a final one: a
    comment on an earlier line of a text of several lines does not make
    this pattern match. *)
Theorem line_comment_on_last_line (query : string) :
  validate_sql_injection query =
    raise SecurityError "Potential SQL injection detected: --.*$" <->
  exists pre post,
    query_to_check query = pre +:+ "--" +:+ post /\ single_line post = true.
Proof.
  rewrite <- search_comment. unfold validate_sql_injection, dangerous_patterns.
  rewrite scan_cons. fold comment_pattern.
  destruct (search IGNORECASE comment_pattern (query_to_check query)).
  - split; reflexivity.
  - split; [|discriminate]. intros H. exfalso.
    apply scan_rejects in H as (before & p & after & Hl & _ & _ & He).
    assert (p ∈ before ++ p :: after) as Hin by (apply elem_of_app; right; left).
    rewrite <- Hl in Hin. unfold raise in He. injection He as He.
    change ("" +:+ p.1) with p.1 in He.
    repeat (apply elem_of_cons in Hin as [-> | Hin]; [discriminate He|]).
    inversion Hin.
Qed.

(** A comment that Gate A lets through: it is not on the last line. *)
Example comment_on_earlier_line :
  validate_sql_injection ("SELECT 1 -- c" +:+ LF +:+ "FROM t") = Ok true.
Proof. vm_compute. reflexivity. Qed.

End Shapes.

(** ** The prompt and the extractor: shapes of their results *)

Section PromptAndExtractor.
Import Re QueryProcessor Aux Shape Fence.

Lemma append_not_empty_r (a b : string) : b <> "" -> a +:+ b <> "".
Proof. destruct a; [rewrite append_nil; auto|rewrite append_cons; discriminate]. Qed.

Lemma is_empty_false (s : string) : s <> "" -> PyStr.is_empty s = false.
Proof. destruct s; [congruence|reflexivity]. Qed.

(** [rstrip] looks at the end of the text only. *)
Lemma rstrip_by_app (p : ascii -> bool) (a b b' : string) :
  PyStr.rstrip_by p b = b' -> b' <> "" ->
  PyStr.rstrip_by p (a +:+ b) = a +:+ b'.
Proof.
  intros Hb Hne. induction a as [|c a IH].
  - rewrite !append_nil. exact Hb.
  - rewrite !append_cons. cbn [PyStr.rstrip_by]. rewrite IH.
    rewrite (is_empty_false _ (append_not_empty_r a b' Hne)). reflexivity.
Qed.

Lemma rstrip_by_fixed (p : ascii -> bool) (s : string) :
  ends_with_by p s = false -> PyStr.rstrip_by p s = s.
Proof.
  induction s as [|c s IH]; [reflexivity|]. intros H. cbn [PyStr.rstrip_by].
  destruct s as [|d s].
  - simpl in *. rewrite H. reflexivity.
  - rewrite (IH H). reflexivity.
Qed.

(** What [lstrip] returns is empty or starts with a character it keeps. *)
Lemma lstrip_by_head (p : ascii -> bool) (s : string) :
  match PyStr.lstrip_by p s with
  | EmptyString => True
  | String c _ => p c = false
  end.
Proof.
  induction s as [|c s IH]; [exact I|]. simpl.
  destruct (p c) eqn:E; [exact IH|exact E].
Qed.

Lemma rstrip_by_head (p : ascii -> bool) (c : ascii) (s : string) :
  p c = false -> exists r, PyStr.rstrip_by p (String c s) = String c r.
Proof.
  intros H. cbn [PyStr.rstrip_by]. rewrite H, andb_false_r. eauto.
Qed.

(** Trimming a trimmed text changes nothing. *)
Lemma strip_idempotent (s : string) : PyStr.strip (PyStr.strip s) = PyStr.strip s.
Proof.
  unfold PyStr.strip.
  pose proof (lstrip_by_head PyStr.isspace_char s) as Hh.
  destruct (PyStr.lstrip_by PyStr.isspace_char s) as [|c t] eqn:E; [reflexivity|].
  destruct (rstrip_by_head PyStr.isspace_char c t Hh) as [r Hr].
  rewrite Hr. cbn [PyStr.lstrip_by]. rewrite Hh, <- Hr.
  apply rstrip_by_fixed, rstrip_by_end.
Qed.

(** X6: the prompt is the fixed text with the question and the schema text
    set in verbatim: it starts with the question's opening marker, and the
    question and the schema text both occur in it as they were passed. *)
Theorem prompt_holds_question_and_schema (user_query schema_info : string) :
  _create_sql_generation_prompt user_query schema_info
    = prompt_text user_query schema_info /\
  PyStr.startswith "### USER QUESTION START"
    (_create_sql_generation_prompt user_query schema_info) = true /\
  Spec.substring user_query (_create_sql_generation_prompt user_query schema_info) /\
  Spec.substring schema_info (_create_sql_generation_prompt user_query schema_info).
Proof.
  set (A := "### USER QUESTION START" +:+ LF +:+ "    ").
  set (B := LF +:+ "    ### USER QUESTION END" +:+ LF +:+ LF +:+ "    ").
  set (C := String.substring (String.length (A +:+ B)) 600 (prompt_text "" "")).
  assert (prompt_text user_query schema_info
          = A +:+ user_query +:+ B +:+ schema_info +:+ C) as Htext by reflexivity.
  assert (_create_sql_generation_prompt user_query schema_info
          = prompt_text user_query schema_info) as Hp.
  { rewrite Htext. unfold _create_sql_generation_prompt, PyStr.strip.
    change (PyStr.lstrip_by PyStr.isspace_char (prompt_template user_query schema_info))
      with (A +:+ user_query +:+ B +:+ schema_info +:+ (C +:+ " ")).
    assert (C <> "") as HC by (vm_compute; discriminate).
    assert (PyStr.rstrip_by PyStr.isspace_char (C +:+ " ") = C) as H0
      by (vm_compute; reflexivity).
    repeat (apply rstrip_by_app; [|repeat apply append_not_empty_r; exact HC]).
    exact H0. }
  rewrite Hp, Htext. split; [reflexivity|]. split; [reflexivity|]. split.
  - exists A, (B +:+ schema_info +:+ C). reflexivity.
  - exists (A +:+ user_query +:+ B), C. now rewrite !append_assoc.
Qed.

(** X7: whatever the completion, the extracted SQL has no white space at
    its start or end: trimming it again changes nothing. *)
Theorem parse_sql_trimmed (response : string) :
  PyStr.strip (_parse_sql response) = _parse_sql response.
Proof.
  unfold _parse_sql.
  destruct (first_code_block response); [apply strip_idempotent|].
  destruct (first_sql_statement response); [apply strip_idempotent|].
  destruct (select_lines response); apply strip_idempotent.
Qed.

(** *** A fenced block *)

Lemma length_append (a b : string) :
  String.length (a +:+ b) = String.length a + String.length b.
Proof.
  induction a as [|c a IH]; [reflexivity|]. rewrite append_cons. simpl. now rewrite IH.
Qed.

Lemma substring_prefix (a b : string) :
  String.substring 0 (String.length a) (a +:+ b) = a.
Proof.
  induction a as [|c a IH].
  - rewrite append_nil. destruct b; reflexivity.
  - rewrite append_cons. simpl. now rewrite IH.
Qed.

Lemma close_lit_fails p c (s : string) cp :
  not_tick c = true ->
  close_lit {| prev := p; rest := String c s; cap := cp |} = None.
Proof.
  intros H. unfold close_lit. cbn [lit run step rest].
  unfold chr_matches. cbn [ignorecase DOTALL].
  unfold not_tick in H. apply negb_true_iff in H.
  destruct (PyStr.eqb_char _ c) eqn:E; [|reflexivity].
  apply eqb_char_eq in E. subst c. discriminate H.
Qed.

Lemma space_not_tick (c : ascii) : PyStr.isspace_char c = true -> not_tick c = true.
Proof.
  intros H. unfold not_tick. destruct (PyStr.eqb_char c "`") eqn:E; [|reflexivity].
  apply eqb_char_eq in E. subst c. discriminate H.
Qed.

Lemma dotall_space_step k p x (t : string) cp :
  run DOTALL Space k {| prev := p; rest := String x t; cap := cp |} =
  if PyStr.isspace_char x then k {| prev := Some x; rest := t; cap := cp |} else None.
Proof. reflexivity. Qed.

Lemma dotall_dot_step k p x (t : string) cp :
  run DOTALL Dot k {| prev := p; rest := String x t; cap := cp |} =
  k {| prev := Some x; rest := t; cap := cp |}.
Proof. reflexivity. Qed.

Lemma star_stops k fuel p x (t : string) cp :
  PyStr.isspace_char x = false ->
  star_loop (run DOTALL Space) k fuel {| prev := p; rest := String x t; cap := cp |}
  = k {| prev := p; rest := String x t; cap := cp |}.
Proof.
  intros H. destruct fuel; cbn [star_loop]; [reflexivity|].
  rewrite dotall_space_step, H. reflexivity.
Qed.

(** Inside the block the closing fence is not found: the text ahead is not
    empty, does not end in white space and holds no backtick. *)
Lemma fence_close_fails (u : string) : forall fuel p cp,
  u <> "" -> ends_with_by PyStr.isspace_char u = false ->
  PyStr.forallb not_tick u = true ->
  star_loop (run DOTALL Space) close_lit fuel
    {| prev := p; rest := u +:+ closing; cap := cp |} = None.
Proof.
  induction u as [|c u IH]; intros fuel p cp Hne Hend Htick; [congruence|].
  rewrite append_cons. simpl in Htick. apply andb_true_iff in Htick as [Hc Hu].
  destruct fuel as [|fuel]; cbn [star_loop]; [apply close_lit_fails, Hc|].
  rewrite dotall_space_step, (close_lit_fails _ _ _ _ Hc). cbn [rest].
  destruct (PyStr.isspace_char c) eqn:Es; [|reflexivity].
  destruct (Nat.ltb _ _); [|reflexivity].
  destruct u as [|d u]; [simpl in Hend; congruence|].
  rewrite IH; [reflexivity|discriminate|exact Hend|exact Hu].
Qed.

Lemma fence_close_at_closing p cp :
  fence_close {| prev := p; rest := closing; cap := cp |} =
  Some {| prev := Some "`"%char; rest := ""; cap := cp |}.
Proof. reflexivity. Qed.

(** The lazy body of the block stops at the closing fence and nowhere
    before. *)
Lemma block_body_captures (b : string) (u : string) : forall done fuel p,
  b = done +:+ u ->
  String.length u <= fuel ->
  (u = "" \/ (ends_with_by PyStr.isspace_char u = false /\
              PyStr.forallb not_tick u = true)) ->
  captures b (lazy_loop (run DOTALL Dot) (captured (b +:+ closing)) fuel
                {| prev := p; rest := u +:+ closing; cap := None |}).
Proof.
  induction u as [|c u IH]; intros done fuel p Hb Hfuel Hu.
  - rewrite append_nil.
    assert (captured (b +:+ closing) {| prev := p; rest := closing; cap := None |}
            = Some {| prev := Some "`"%char; rest := ""; cap := Some b |}) as E.
    { unfold captured. cbn [rest prev]. rewrite fence_close_at_closing.
      rewrite length_append, Nat.add_sub, substring_prefix. reflexivity. }
    destruct fuel; cbn [lazy_loop]; rewrite E; simpl; eexists; eauto.
  - destruct Hu as [Hu|[Hend Htick]]; [discriminate|].
    destruct fuel as [|fuel]; [simpl in Hfuel; lia|].
    cbn [lazy_loop].
    assert (captured (b +:+ closing)
              {| prev := p; rest := String c u +:+ closing; cap := None |} = None) as ->.
    { unfold captured, fence_close. cbn [rest prev].
      apply fence_close_fails; [discriminate|exact Hend|exact Htick]. }
    cbn [orelse]. rewrite append_cons, dotall_dot_step. cbn [rest].
    assert (Nat.ltb (String.length (u +:+ closing))
                    (String.length (String c (u +:+ closing))) = true) as ->
      by (apply Nat.ltb_lt; simpl; lia).
    apply (IH (done +:+ String c "")).
    + rewrite Hb, append_assoc. reflexivity.
    + simpl in Hfuel. lia.
    + destruct u as [|d u]; [left; reflexivity|right].
      simpl in Htick. apply andb_true_iff in Htick as [_ Htick]. split; [exact Hend|exact Htick].
Qed.

Lemma replace_without_tick (old new : string) (s : string) c0 old' :
  old = String "`" old' -> c0 = 0 ->
  PyStr.forallb not_tick s = true -> PyStr.replace_aux old new c0 s = s.
Proof.
  intros -> ->. induction s as [|c s IH]; [reflexivity|].
  cbn [PyStr.replace_aux PyStr.startswith PyStr.forallb].
  intros H. apply andb_true_iff in H as [Hc Hs].
  unfold not_tick in Hc. apply negb_true_iff in Hc.
  assert (PyStr.eqb_char "`" c = false) as ->.
  { destruct (PyStr.eqb_char "`" c) eqn:E; [|reflexivity].
    apply eqb_char_eq in E. subst c. discriminate Hc. }
  cbn [andb]. now rewrite (IH Hs).
Qed.

(** X8: a trimmed statement without a backtick that the completion carries
    in a fenced block tagged [sql], on a line of its own, is extracted as it
    is. *)
Theorem parse_sql_fenced (b : string) :
  PyStr.strip b = b ->
  PyStr.forallb not_tick b = true ->
  _parse_sql (fenced b) = b.
Proof.
  intros Hstrip Htick.
  destruct b as [|x t] eqn:Eb; [vm_compute; reflexivity|]. rewrite <- Eb in *.
  assert (PyStr.isspace_char x = false) as Hx.
  { pose proof Hstrip as Hs. unfold PyStr.strip in Hs.
    pose proof (lstrip_by_head PyStr.isspace_char b) as H1.
    destruct (PyStr.lstrip_by PyStr.isspace_char b) as [|c r].
    - rewrite Eb in Hs. discriminate Hs.
    - destruct (rstrip_by_head PyStr.isspace_char c r H1) as [r' Hr].
      rewrite Hr, Eb in Hs. injection Hs as -> _. exact H1. }
  assert (captures b (match_at DOTALL code_block None (fenced b))) as (e & He & _ & Hcap).
  { unfold match_at, code_block, fenced.
    change (run DOTALL _ Some {| prev := None; rest := _; cap := None |})
      with (orelse
              (star_loop (run DOTALL Space) block_body
                 (String.length (LF +:+ b +:+ closing))
                 {| prev := Some "l"%char; rest := LF +:+ b +:+ closing; cap := None |})
              (star_loop (run DOTALL Space) block_body
                 (String.length ("sql" +:+ LF +:+ b +:+ closing))
                 {| prev := Some "`"%char; rest := "sql" +:+ LF +:+ b +:+ closing;
                    cap := None |})).
    assert (forall o o', captures b o -> captures b (orelse o o')) as Hor
      by (intros o o' (e & -> & H); exists e; auto).
    apply Hor.
    change (LF +:+ b +:+ closing) with (String newline (b +:+ closing)).
    cbn [String.length star_loop]. rewrite dotall_space_step. cbn [rest].
    change (PyStr.isspace_char newline) with true. cbv iota.
    assert (Nat.ltb (String.length (b +:+ closing))
                    (String.length (String newline (b +:+ closing))) = true) as ->
      by (apply Nat.ltb_lt; simpl; lia).
    apply Hor.
    assert (captures b (block_body {| prev := Some newline; rest := b +:+ closing;
                                      cap := None |})) as Hbody.
    { unfold block_body. cbn [rest].
      apply (block_body_captures b b "" _ _ eq_refl); [rewrite length_append; lia|].
      right. split; [|exact Htick]. apply strip_fixed_end, Hstrip. }
    assert (b +:+ closing = String x (t +:+ closing)) as Er by (rewrite Eb; reflexivity).
    revert Hbody. generalize (String.length (b +:+ closing)). rewrite Er. intros fuel Hbody.
    rewrite (star_stops _ _ _ _ _ _ Hx). exact Hbody. }
  unfold _parse_sql, first_code_block.
  rewrite (search_from_here _ _ _ _ _ He), Hcap. cbn [default id].
  rewrite Hstrip.
  unfold PyStr.replace.
  rewrite (replace_without_tick "```sql" "" b 0 "``sql" eq_refl eq_refl Htick).
  rewrite (replace_without_tick "```" "" b 0 "``" eq_refl eq_refl Htick).
  exact Hstrip.
Qed.

Lemma parse_sql_fenced_witness :
  _parse_sql (fenced "SELECT id, name FROM customers WHERE country = 'FR';")
  = "SELECT id, name FROM customers WHERE country = 'FR';".
Proof. apply parse_sql_fenced; vm_compute; reflexivity. Defined.

End PromptAndExtractor.

(** ** The orchestrator: what reaches the model and the store *)

Section Pipeline.
Import DatabaseSchemaManager LocalLLMClient QueryExecutor OfflineRAGAgent.

(** What [generate_sql] returns, and what it has sent by then. *)
Lemma generate_sql_cases (c : client) (prompt : string) :
  generate_sql c prompt = IO [] (Ok "Model not ready.") \/
  (exists e, generate_sql c prompt = IO [] (Raise e)) \/
  (exists raw,
      generate_sql c prompt
        = IO [LlmCall (instruction_template prompt) max_response_tokens stop_sequences]
             (Ok raw) /\
      (raw = "Error generating SQL." \/
       exists text, llm c (instruction_template prompt) = Ok text /\ raw = PyStr.strip text)).
Proof.
  unfold generate_sql. io_unfold.
  destruct (negb (is_loaded c) && negb _); [left; reflexivity|right].
  destruct (tokenize c prompt) as [encoded|e]; simpl; [|left; exists e; reflexivity].
  destruct (truncated_prompt c prompt encoded) as [p|e]; simpl; [|left; exists e; reflexivity].
  right. destruct (llm c (instruction_template prompt)) as [text|e] eqn:L; simpl.
  - exists (PyStr.strip text). split; [reflexivity|]. right. exists text. auto.
  - exists "Error generating SQL.". split; [reflexivity|]. left. reflexivity.
Qed.

(** The two sentinel texts of the client are no SQL for the validator. *)
Lemma sentinels_rejected :
  QueryProcessor.validate_sql (QueryProcessor._parse_sql "Model not ready.")
    = Ok (false, "Query must start with SELECT") /\
  QueryProcessor.validate_sql (QueryProcessor._parse_sql "Error generating SQL.")
    = Ok (false, "Query must start with SELECT").
Proof. vm_compute. split; reflexivity. Qed.

(** What [generate_query] hands back has passed the validator, and is the
    extraction of a completion the model gave for the question's prompt. *)
Lemma generate_query_returns a c (q s : string) :
  outcome (generate_query a c q) = Ok s ->
  QueryProcessor.validate_sql s = Ok (true, "") /\
  exists sch text,
    get_schema a = Ok sch /\
    llm c (instruction_template
             (QueryProcessor._create_sql_generation_prompt q (filter_relevant_tables sch q)))
      = Ok text /\
    s = QueryProcessor._parse_sql (PyStr.strip text) /\
    log (generate_query a c q)
      = [LlmCall (instruction_template
                    (QueryProcessor._create_sql_generation_prompt q
                       (filter_relevant_tables sch q)))
           max_response_tokens stop_sequences].
Proof.
  unfold generate_query. rewrite outcome_try, log_try.
  destruct (PyStr.is_empty q); [discriminate|].
  destruct (get_schema a) as [sch|e]; [|discriminate].
  rewrite outcome_bind, log_bind, outcome_lift, log_lift, app_nil_l.
  rewrite outcome_bind, log_bind.
  set (prompt := QueryProcessor._create_sql_generation_prompt q (filter_relevant_tables sch q)).
  destruct (generate_sql_cases c prompt) as [E | [[e E] | (raw & E & Hraw)]];
    rewrite E; cbn [outcome log]; [| discriminate |].
  - rewrite outcome_bind, outcome_lift, (proj1 sentinels_rejected). discriminate.
  - rewrite outcome_bind, log_bind, outcome_lift, log_lift.
    destruct Hraw as [-> | (text & Hllm & ->)].
    + rewrite (proj2 sentinels_rejected). discriminate.
    + destruct (QueryProcessor.validate_sql _) as [[valid reason]|e] eqn:V; [|discriminate].
      destruct valid; [|discriminate]. cbn [fst negb]. cbv iota.
      intros [= <-]. pose proof (validate_sql_accepts_empty_reason _ _ V) as ->.
      split; [exact V|]. exists sch, text. repeat split; auto.
Qed.

Lemma generate_query_log_shape a c (q : string) :
  log (generate_query a c q) = [] \/
  exists text, log (generate_query a c q) = [LlmCall text max_response_tokens stop_sequences].
Proof.
  unfold generate_query. rewrite log_try.
  assert (forall e, log (io_raise (A := string) QueryProcessingError
                           ("Failed to process query: " +:+ exn_msg e)) = []) as Hh
    by reflexivity.
  destruct (PyStr.is_empty q); [left; reflexivity|].
  destruct (get_schema a) as [sch|e]; [|left; reflexivity].
  rewrite outcome_bind, log_bind, outcome_lift, log_lift, app_nil_l.
  rewrite outcome_bind, log_bind.
  set (prompt := QueryProcessor._create_sql_generation_prompt q (filter_relevant_tables sch q)).
  destruct (generate_sql_cases c prompt) as [E | [[e E] | (raw & E & _)]];
    rewrite E; cbn [outcome log].
  - left. rewrite outcome_bind, log_bind, outcome_lift, log_lift.
    rewrite (proj1 sentinels_rejected). reflexivity.
  - left. reflexivity.
  - right. exists (instruction_template prompt).
    rewrite outcome_bind, log_bind, outcome_lift, log_lift.
    destruct (QueryProcessor.validate_sql _) as [[valid reason]|e]; [|reflexivity].
    destruct valid; reflexivity.
Qed.

Lemma io_ext {A} (m m' : io A) :
  log m = log m' -> outcome m = outcome m' -> m = m'.
Proof. destruct m, m'. simpl. intros -> ->. reflexivity. Qed.

Lemma execute_query_log_is b (s : string) : log (execute_query b s) = [StoreExecute s].
Proof.
  unfold execute_query. io_unfold.
  destruct (store b s); simpl; [reflexivity|].
  destruct (PyStr.contains _ _); reflexivity.
Qed.

(** [process_query] up to the call of the query processor. *)
Lemma process_query_try_start a (q : string) :
  process_query_try a q =
  match QueryValidator.validate_query q with
  | Raise e => IO [] (Raise e)
  | Ok _ =>
      if negb (fst (readiness a))
      then IO [] (Ok (brief "pending" "Model loading timeout. Please try again." q))
      else
        match outcome (generate_query a (snd (readiness a)) q) with
        | Raise e => IO (log (generate_query a (snd (readiness a)) q)) (Raise e)
        | Ok s =>
            let run :=
              execution_result ← execute_query (backend_of a) s;
              message ← lift (lookup_key "message"
                               (fmt_message (format_results (backend_of a) execution_result)));
              mret {| status := fmt_status (format_results (backend_of a) execution_result);
                      message := message;
                      user_query := q;
                      sql := Some s;
                      results := Some (Results (fmt_data
                                   (format_results (backend_of a) execution_result)));
                      columns := Some (fmt_columns
                                   (format_results (backend_of a) execution_result));
                      summary := Some (fmt_summary
                                   (format_results (backend_of a) execution_result));
                      metrics := Some ["processing_time"] |} in
            IO (log (generate_query a (snd (readiness a)) q) ++ log run) (outcome run)
        end
  end.
Proof.
  unfold process_query_try. fold (readiness a).
  destruct (QueryValidator.validate_query q) as [ok|e]; [|reflexivity].
  apply io_ext.
  - rewrite log_bind, outcome_lift, log_lift, app_nil_l.
    destruct (negb (fst (readiness a))); [reflexivity|].
    rewrite log_bind.
    destruct (outcome (generate_query a (snd (readiness a)) q)) as [s|e] eqn:G;
      [|reflexivity].
    destruct (generate_query_returns _ _ _ _ G) as [V _].
    rewrite log_bind, outcome_lift, log_lift, V. reflexivity.
  - rewrite outcome_bind, outcome_lift.
    destruct (negb (fst (readiness a))); [reflexivity|].
    rewrite outcome_bind.
    destruct (outcome (generate_query a (snd (readiness a)) q)) as [s|e] eqn:G;
      [|reflexivity].
    destruct (generate_query_returns _ _ _ _ G) as [V _].
    rewrite outcome_bind, outcome_lift, V. reflexivity.
Qed.

(** [process_query] always returns a response. *)
Lemma process_query_never_fails a (q : string) :
  exists r, outcome (process_query a q) = Ok r.
Proof.
  unfold process_query. rewrite outcome_try.
  destruct (outcome (process_query_try a q)) as [r|e]; [eauto|].
  unfold process_query_except. destruct (exn_cls e); simpl; eauto.
Qed.

Lemma run_log b (q s : string) :
  log (execution_result ← execute_query b s;
       message ← lift (lookup_key "message" (fmt_message (format_results b execution_result)));
       mret {| status := fmt_status (format_results b execution_result);
               message := message;
               user_query := q;
               sql := Some s;
               results := Some (Results (fmt_data (format_results b execution_result)));
               columns := Some (fmt_columns (format_results b execution_result));
               summary := Some (fmt_summary (format_results b execution_result));
               metrics := Some ["processing_time"] |})
  = [StoreExecute s].
Proof.
  rewrite log_bind, execute_query_log_is.
  destruct (outcome (execute_query b s)); [|reflexivity].
  rewrite log_bind, outcome_lift, log_lift.
  destruct (lookup_key _ _); reflexivity.
Qed.

Lemma process_query_log_is a (q : string) :
  log (process_query a q) = log (process_query_try a q).
Proof.
  unfold process_query. rewrite log_try.
  destruct (outcome (process_query_try a q)); [reflexivity|].
  now rewrite process_query_except_log, app_nil_r.
Qed.


(** The ways [process_query] returns. *)
Lemma process_query_returns a (q : string) r :
  outcome (process_query a q) = Ok r ->
  r = brief "pending" "Model loading timeout. Please try again." q \/
  (exists msg, r = brief "error" msg q) \/
  (exists s x m,
      outcome (generate_query a (snd (readiness a)) q) = Ok s /\
      outcome (execute_query (backend_of a) s) = Ok x /\
      fmt_message (format_results (backend_of a) x) = Some m /\
      StoreExecute s ∈ log (process_query a q) /\
      r = {| status := fmt_status (format_results (backend_of a) x);
             message := m; user_query := q; sql := Some s;
             results := Some (Results (fmt_data (format_results (backend_of a) x)));
             columns := Some (fmt_columns (format_results (backend_of a) x));
             summary := Some (fmt_summary (format_results (backend_of a) x));
             metrics := Some ["processing_time"] |}).
Proof.
  rewrite process_query_log_is. unfold process_query. rewrite outcome_try.
  rewrite process_query_try_start.
  assert (forall e, outcome (process_query_except q e) = Ok r ->
                    exists msg, r = brief "error" msg q) as Hexc.
  { intros e. unfold process_query_except.
    destruct (exn_cls e); simpl; intros [= <-]; eauto. }
  destruct (QueryValidator.validate_query q); cbn [outcome]; [|intros H; right; left; exact (Hexc _ H)].
  destruct (negb (fst (readiness a))); cbn [outcome]; [intros [= <-]; auto|].
  destruct (outcome (generate_query a (snd (readiness a)) q)) as [s|e] eqn:G;
    cbn [outcome]; [|intros H; right; left; exact (Hexc _ H)].
  cbv zeta. cbn [outcome log]. rewrite outcome_bind, run_log.
  destruct (outcome (execute_query (backend_of a) s)) as [x|e] eqn:X; [|intros H; right; left; exact (Hexc _ H)].
  rewrite outcome_bind, outcome_lift.
  destruct (fmt_message (format_results (backend_of a) x)) as [m|] eqn:M;
    cbn [lookup_key]; [|intros H; right; left; exact (Hexc _ H)].
  intros [= <-]. right. right. exists s, x, m. repeat split; auto.
  apply elem_of_app. right. left.
Qed.

(** X15: a response that carries an [sql] entry comes from an execution:
    that statement passed the validator and was handed to the store, and
    the response holds its rows.  The return for SQL found invalid by the
    agent's own check, with [results] set to [None], is never taken. *)
Theorem response_sql_was_executed a (q : string) (r : response) (s : string) :
  outcome (process_query a q) = Ok r ->
  sql r = Some s ->
  QueryProcessor.validate_sql s = Ok (true, "") /\
  StoreExecute s ∈ log (process_query a q) /\
  exists d, results r = Some (Results d).
Proof.
  intros Hr Hs.
  destruct (process_query_returns _ _ _ Hr)
    as [-> | [[msg ->] | (s' & x & m & G & _ & _ & Hlog & ->)]]; try discriminate Hs.
  injection Hs as ->.
  destruct (generate_query_returns _ _ _ _ G) as [V _].
  split; [exact V|]. split; [exact Hlog|]. eauto.
Qed.

Lemma response_sql_was_executed_witness :
  QueryProcessor.validate_sql "SELECT id FROM customers" = Ok (true, "") /\
  StoreExecute "SELECT id FROM customers"
    ∈ log (process_query (demo_agent true fenced_completion) "List customers") /\
  exists d,
    Some (Results (Records [[("id", SqlText "c1")]])) = Some (Results d).
Proof.
  apply (response_sql_was_executed (demo_agent true fenced_completion) "List customers"
           {| status := "success"; message := "Query executed successfully";
              user_query := "List customers"; sql := Some "SELECT id FROM customers";
              results := Some (Results (Records [[("id", SqlText "c1")]]));
              columns := Some ["id"];
              summary := Some (Some {| row_count := 1; column_count := 1;
                                       column_types := [("id", "object")] |});
              metrics := Some ["processing_time"] |});
    vm_compute; reflexivity.
Defined.

Lemma readiness_llm a : llm (snd (readiness a)) = llm (llm_client a).
Proof. unfold readiness. destruct (negb _); reflexivity. Qed.

(** X18: when the model's completion call fails on every prompt, the
    question ends as [pending] or [error], the response carries no SQL, and
    nothing is handed to the store. *)
Theorem model_failure_stops_before_store a (q : string) :
  (forall prompt text, llm (llm_client a) prompt <> Ok text) ->
  exists r,
    outcome (process_query a q) = Ok r /\
    (status r = "pending" \/ status r = "error") /\
    sql r = None /\
    forall s, StoreExecute s ∉ log (process_query a q).
Proof.
  intros Hllm.
  destruct (process_query_never_fails a q) as [r Hr]. exists r. split; [exact Hr|].
  assert (forall s, StoreExecute s ∉ log (process_query a q)) as Hlog.
  { intros s. rewrite process_query_log_is, process_query_try_start.
    destruct (QueryValidator.validate_query q); [|intros H; in_log H].
    destruct (negb (fst (readiness a))); [intros H; in_log H|].
    destruct (outcome (generate_query a (snd (readiness a)) q)) as [s'|e] eqn:G.
    - destruct (generate_query_returns _ _ _ _ G) as (_ & sch & text & _ & L & _).
      rewrite readiness_llm in L. exfalso. exact (Hllm _ _ L).
    - cbn [log].
      destruct (generate_query_log_shape a (snd (readiness a)) q) as [-> | [text ->]];
        intros H; in_log H; discriminate H. }
  destruct (process_query_returns _ _ _ Hr)
    as [-> | [[msg ->] | (s' & x & m & _ & _ & _ & Hin & _)]]; auto.
  exfalso. exact (Hlog _ Hin).
Qed.

Lemma model_failure_stops_before_store_witness :
  exists r,
    outcome (process_query (agent_with broken_model demo_backend) "List customers") = Ok r /\
    (status r = "pending" \/ status r = "error") /\
    sql r = None /\
    forall s, StoreExecute s
              ∉ log (process_query (agent_with broken_model demo_backend) "List customers").
Proof.
  apply (model_failure_stops_before_store (agent_with broken_model demo_backend)).
  intros prompt text. discriminate.
Defined.

(** [process_query] once the query processor has produced its statement. *)
Lemma process_query_after_generation a (q s : string) :
  QueryValidator.validate_query q = Ok true ->
  fst (readiness a) = true ->
  outcome (generate_query a (snd (readiness a)) q) = Ok s ->
  outcome (process_query a q) =
  match outcome (execute_query (backend_of a) s) with
  | Raise e => outcome (process_query_except q e)
  | Ok x =>
      match fmt_message (format_results (backend_of a) x) with
      | None => outcome (process_query_except q
                           {| exn_cls := OtherException; exn_msg := "'message'" |})
      | Some m =>
          Ok {| status := fmt_status (format_results (backend_of a) x);
                message := m; user_query := q; sql := Some s;
                results := Some (Results (fmt_data (format_results (backend_of a) x)));
                columns := Some (fmt_columns (format_results (backend_of a) x));
                summary := Some (fmt_summary (format_results (backend_of a) x));
                metrics := Some ["processing_time"] |}
      end
  end.
Proof.
  intros Hv Hr G. unfold process_query.
  rewrite outcome_try, process_query_try_start, Hv, Hr, G.
  cbv zeta. cbn [negb outcome]. rewrite outcome_bind.
  destruct (outcome (execute_query (backend_of a) s)) as [x|e]; [|reflexivity].
  rewrite outcome_bind, outcome_lift.
  destruct (fmt_message (format_results (backend_of a) x)); reflexivity.
Qed.

(** X20: when the store fails on the generated statement, the answer is an
    [error] response that echoes the question and carries no SQL: with the
    timeout message if the store's error text mentions a timeout in any
    letter case, and otherwise as an unexpected error that quotes the
    store's text. *)
Theorem store_failure_reported a (q s : string) (e : exn) :
  QueryValidator.validate_query q = Ok true ->
  fst (readiness a) = true ->
  outcome (generate_query a (snd (readiness a)) q) = Ok s ->
  store (backend_of a) s = Raise e ->
  outcome (process_query a q) =
  Ok (brief "error"
        (if PyStr.contains "timeout" (PyStr.lower (exn_msg e))
         then "Query timeout: Query execution timed out after 30 seconds"
         else "An unexpected error occurred: Failed to execute query: " +:+ exn_msg e)
        q).
Proof.
  intros Hv Hr G Hs. rewrite (process_query_after_generation a q s Hv Hr G).
  unfold execute_query. rewrite outcome_try, outcome_bind. cbn [outcome emit].
  rewrite outcome_bind, outcome_lift, Hs.
  destruct (PyStr.contains "timeout" (PyStr.lower (exn_msg e))); reflexivity.
Qed.

Lemma store_failure_reported_witness :
  outcome (process_query
             (agent_with (char_model true fenced_completion)
                         (failing_store "Busy Timeout expired"))
             "List customers") =
  Ok (brief "error" "Query timeout: Query execution timed out after 30 seconds"
        "List customers").
Proof.
  apply (store_failure_reported
           (agent_with (char_model true fenced_completion)
                       (failing_store "Busy Timeout expired"))
           "List customers" "SELECT id FROM customers"
           {| exn_cls := OtherException; exn_msg := "Busy Timeout expired" |});
    vm_compute; reflexivity.
Defined.

(** X21: when pandas fails on the fetched rows, the response has status
    [error] and the formatter's message, and still carries the statement,
    the rows as fetched, the column names, an empty summary and the
    metrics entry. *)
Theorem format_failure_keeps_rows a (q s : string) rows cols (e : exn) :
  QueryValidator.validate_query q = Ok true ->
  fst (readiness a) = true ->
  outcome (generate_query a (snd (readiness a)) q) = Ok s ->
  store (backend_of a) s = Ok (rows, cols) ->
  dataframe (backend_of a) rows cols = Raise e ->
  outcome (process_query a q) =
  Ok {| status := "error";
        message := "Failed to format results: " +:+ exn_msg e;
        user_query := q;
        sql := Some s;
        results := Some (Results (Rows rows));
        columns := Some cols;
        summary := Some None;
        metrics := Some ["processing_time"] |}.
Proof.
  intros Hv Hr G Hs Hd. rewrite (process_query_after_generation a q s Hv Hr G).
  unfold execute_query. rewrite outcome_try, outcome_bind. cbn [outcome emit].
  rewrite outcome_bind, outcome_lift, Hs. cbn [outcome mret io_ret fst snd].
  unfold format_results. cbn [exec_status exec_data exec_columns String.eqb negb].
  change (String.eqb "success" "success") with true. cbn [negb].
  rewrite Hd. reflexivity.
Qed.

Lemma format_failure_keeps_rows_witness :
  outcome (process_query (agent_with (char_model true fenced_completion) failing_pandas)
             "List customers") =
  Ok {| status := "error";
        message := "Failed to format results: arrays must be of the same length";
        user_query := "List customers";
        sql := Some "SELECT id FROM customers";
        results := Some (Results (Rows [[SqlText "c1"]]));
        columns := Some ["id"];
        summary := Some None;
        metrics := Some ["processing_time"] |}.
Proof.
  apply (format_failure_keeps_rows
           (agent_with (char_model true fenced_completion) failing_pandas)
           "List customers" "SELECT id FROM customers" [[SqlText "c1"]] ["id"]
           {| exn_cls := OtherException; exn_msg := "arrays must be of the same length" |});
    vm_compute; reflexivity.
Defined.

(** The input checks raise nothing but [SecurityError]. *)
Lemma validate_query_raises_security (q : string) e :
  QueryValidator.validate_query q = Raise e -> exn_cls e = SecurityError.
Proof.
  unfold QueryValidator.validate_query, SecurityValidator.validate_query_length,
    SecurityValidator.validate_sql_injection, mbind, result_bind.
  destruct (Nat.ltb _ _); [unfold raise; intros [= <-]; reflexivity|].
  destruct (SecurityValidator.scan _ _) eqn:E; [discriminate|].
  intros [= <-]. exact (scan_raises_security _ _ _ E).
Qed.

(** X16: a question refused by the input checks is answered at once: an
    [error] response with the check's message after [Security error: ],
    the question echoed as passed, and neither the model nor the store
    called. *)
Theorem refused_question_stops_at_once a (q : string) (e : exn) :
  QueryValidator.validate_query q = Raise e ->
  process_query a q = IO [] (Ok (brief "error" ("Security error: " +:+ exn_msg e) q)).
Proof.
  intros Hv. pose proof (validate_query_raises_security _ _ Hv) as Hc.
  unfold process_query. rewrite process_query_try_start, Hv.
  unfold try_io. cbn [outcome log]. unfold process_query_except. rewrite Hc. reflexivity.
Qed.

Lemma refused_question_stops_at_once_witness :
  process_query (demo_agent true fenced_completion) "List customers; DROP TABLE customers" =
  IO [] (Ok (brief "error"
               ("Security error: " +:+ "Potential SQL injection detected: ;\s*(?!$)")
               "List customers; DROP TABLE customers")).
Proof.
  apply (refused_question_stops_at_once (demo_agent true fenced_completion)
           "List customers; DROP TABLE customers"
           {| exn_cls := SecurityError;
              exn_msg := "Potential SQL injection detected: ;\s*(?!$)" |}).
  vm_compute. reflexivity.
Defined.

(** X17: the empty question passes the input checks; once the model is
    ready it is refused by the query processor, before the schema is read
    or the model called, and reported as an unexpected error. *)
Theorem empty_question_reported a :
  fst (readiness a) = true ->
  process_query a "" =
  IO [] (Ok (brief "error"
               "An unexpected error occurred: Failed to process query: Invalid query input"
               "")).
Proof.
  intros Hr. unfold process_query. rewrite process_query_try_start.
  change (QueryValidator.validate_query "") with (Ok (A := bool) true). cbv iota.
  rewrite Hr. reflexivity.
Qed.

Lemma empty_question_reported_witness :
  process_query (demo_agent true fenced_completion) "" =
  IO [] (Ok (brief "error"
               "An unexpected error occurred: Failed to process query: Invalid query input"
               "")).
Proof. apply (empty_question_reported (demo_agent true fenced_completion)). reflexivity. Defined.

End Pipeline.

(** ** The schema cache and the metrics store *)

Section SchemaCacheFacts.
Import DatabaseSchemaManager SchemaCache Aux.

Lemma get_schema_ok db refresh m s m' :
  get_schema db refresh m = (Ok s, m') -> schema_cache m' = Some s.
Proof.
  unfold get_schema, get_connection.
  destruct (schema_cache m) as [s0|] eqn:C; [destruct refresh|].
  2: { intros [= <- <-]. exact C. }
  all: destruct (if connection m then Ok m else connect db m) as [m1|e]; [|discriminate];
    destruct (if connection m1 then Ok m1 else connect db m1) as [m2|e]; [|discriminate];
    destruct (introspect db) as [s1|e]; [|discriminate];
    intros [= <- <-]; reflexivity.
Qed.

(** X11: once [get_schema] has returned a schema, with or without
    [refresh], a later call without [refresh] returns that same schema and
    leaves the manager as it is, whatever the database has become. *)
Theorem get_schema_cached db db' refresh m s m' :
  get_schema db refresh m = (Ok s, m') ->
  get_schema db' false m' = (Ok s, m').
Proof.
  intros H. apply get_schema_ok in H. unfold get_schema. rewrite H. reflexivity.
Qed.

Lemma get_schema_cached_witness :
  get_schema {| open_db := raise OtherException "unable to open database file";
                introspect := raise OtherException "no such table" |}
    false {| connection := false; schema_cache := Some demo_schema |}
  = (Ok demo_schema, {| connection := false; schema_cache := Some demo_schema |}).
Proof.
  apply (get_schema_cached {| open_db := Ok tt; introspect := Ok demo_schema |} _ true
           {| connection := false; schema_cache := None |}).
  reflexivity.
Defined.

(** X12: when [get_schema] fails, the cache is what it was: nothing partial
    is stored, and a schema cached earlier survives a failed refresh; and
    no connection is left open. *)
Theorem get_schema_failure_keeps_cache db refresh m e m' :
  get_schema db refresh m = (Raise e, m') ->
  schema_cache m' = schema_cache m /\
  connection m' = false.
Proof.
  unfold get_schema, get_connection, connect, close, mbind, result_bind.
  destruct (schema_cache m) as [s0|] eqn:C; [destruct refresh|]; try discriminate;
    destruct (connection m) eqn:Cm; simpl; rewrite ?Cm; simpl;
    destruct (open_db db); simpl; rewrite ?Cm; simpl;
    destruct (introspect db); simpl; try discriminate;
    intros [= <- <-]; auto.
Qed.

Lemma get_schema_failure_keeps_cache_witness :
  schema_cache {| connection := false; schema_cache := Some demo_schema |}
    = schema_cache {| connection := true; schema_cache := Some demo_schema |} /\
  connection {| connection := false; schema_cache := Some demo_schema |} = false.
Proof.
  apply (get_schema_failure_keeps_cache
           {| open_db := Ok tt; introspect := raise OtherException "database disk image is malformed" |}
           true {| connection := true; schema_cache := Some demo_schema |}
           {| exn_cls := OtherException; exn_msg := "database disk image is malformed" |}).
  reflexivity.
Defined.

(** X13: a [get_schema] that reads the database (no cache, or [refresh])
    returns what the introspection yields whenever a connection is open or
    can be opened, and afterwards no connection is open: the connection the
    agent opened at start is closed by its first schema read. *)
Theorem get_schema_reads_and_closes db refresh m :
  (schema_cache m = None \/ refresh = true) ->
  (connection m = true \/ open_db db = Ok tt) ->
  fst (get_schema db refresh m) = introspect db /\
  connection (snd (get_schema db refresh m)) = false.
Proof.
  intros Hread Hopen.
  unfold get_schema, get_connection, connect, close, mbind, result_bind.
  assert (match schema_cache m, refresh with
          | Some _, false => False
          | _, _ => True
          end) as Hc.
  { destruct Hread as [-> | ->]; [exact I|]. destruct (schema_cache m); exact I. }
  destruct (schema_cache m) as [s0|]; [destruct refresh; [|contradiction]|];
    (destruct (connection m) eqn:Cm;
     [|destruct Hopen as [Hopen|Hopen]; [discriminate|rewrite Hopen]];
     simpl; rewrite ?Cm; simpl;
     destruct (introspect db); simpl; auto).
Qed.

Lemma get_schema_reads_and_closes_witness :
  fst (get_schema {| open_db := Ok tt; introspect := Ok demo_schema |} false
         {| connection := true; schema_cache := None |}) = Ok demo_schema /\
  connection (snd (get_schema {| open_db := Ok tt; introspect := Ok demo_schema |} false
                     {| connection := true; schema_cache := None |})) = false.
Proof.
  apply (get_schema_reads_and_closes {| open_db := Ok tt; introspect := Ok demo_schema |}
           false {| connection := true; schema_cache := None |});
    left; reflexivity.
Defined.

Lemma render_all_spec ts formatted :
  render_all ts formatted = formatted +:+ lines ts.
Proof.
  revert formatted. induction ts as [|t ts IH]; intros formatted; simpl.
  - now rewrite append_empty_r.
  - rewrite IH. apply append_assoc.
Qed.

Lemma filter_all {A} (P : A -> Prop) `{forall x, Decision (P x)} (l : list A) :
  (forall x, x ∈ l -> P x) -> filter P l = l.
Proof.
  induction l as [|x l IH]; intros H'; [reflexivity|].
  rewrite filter_cons. destruct (decide (P x)) as [_|N].
  - f_equal. apply IH. intros y Hy. apply H'. right. exact Hy.
  - exfalso. apply N, H'. left.
Qed.

(** X10: for a question that mentions every table of the schema,
    [filter_relevant_tables] renders what [format_schema_for_llm] renders
    for the whole schema: the header and one line for each table, in schema
    order. *)
Theorem filter_of_all_tables_is_full_schema (s : schema) (q : string) :
  (forall t, t ∈ tables s -> Spec.mentions q t) ->
  filter_relevant_tables s q = render_all (tables s) header /\
  render_all (tables s) header = header +:+ lines (tables s).
Proof.
  intros Hall. split; [|apply render_all_spec].
  rewrite render_all_spec. unfold filter_relevant_tables. rewrite render_spec.
  f_equal. f_equal. apply filter_all. intros t Ht.
  assert (name t ∈ mentioned (PyStr.lower q) (tables s) ∅) as Hin.
  { apply mentioned_spec. right. exists t. repeat split; auto.
    apply contains_spec, Hall, Ht. }
  unfold relevant_tables.
  destruct (decide (mentioned (PyStr.lower q) (tables s) ∅ = ∅)) as [E|_]; [|exact Hin].
  rewrite E in Hin. set_solver.
Qed.

Lemma filter_of_all_tables_is_full_schema_witness :
  filter_relevant_tables demo_schema "Customers per VISIT"
    = render_all (tables demo_schema) header /\
  render_all (tables demo_schema) header = header +:+ lines (tables demo_schema).
Proof.
  apply (filter_of_all_tables_is_full_schema demo_schema "Customers per VISIT").
  intros t Ht. apply contains_spec.
  repeat (apply elem_of_cons in Ht as [-> | Ht]; [vm_compute; reflexivity|]).
  inversion Ht.
Defined.

End SchemaCacheFacts.

Section MetricsFacts.
Import MetricsCollector.
Context {V : Type}.

Lemma get_record_same (name : string) (v : V) (m : gmap string (list V)) :
  get_metric name (record_metric name v m) = get_metric name m ++ [v].
Proof. unfold get_metric, record_metric. now rewrite lookup_insert_eq. Qed.

Lemma get_record_other (name name' : string) (v : V) (m : gmap string (list V)) :
  name' <> name -> get_metric name (record_metric name' v m) = get_metric name m.
Proof.
  intros H. unfold get_metric, record_metric.
  rewrite lookup_insert_ne by exact H. reflexivity.
Qed.

(** X23: the collector is append-only per name: after any run of
    [record_metric] calls, [get_metric] of a name returns what it returned
    before, followed by the values recorded under that name, in recording
    order, whatever was recorded under other names in between; a name never
    recorded gives the empty list, and so does every name after
    [clear_metrics]. *)
Theorem metrics_append_only (name : string) (samples : list (string * V))
    (m : gmap string (list V)) :
  get_metric name (record_all samples m) = get_metric name m ++ samples_of name samples /\
  get_metric name (∅ : gmap string (list V)) = [] /\
  get_metric name (clear_metrics (record_all samples m)) = [].
Proof.
  split; [|split; reflexivity].
  revert m. induction samples as [|[n v] samples IH]; intros m.
  - simpl. now rewrite app_nil_r.
  - unfold record_all, samples_of in *. simpl. rewrite IH.
    destruct (decide (n = name)) as [->|N]; simpl.
    + rewrite get_record_same, <- app_assoc. reflexivity.
    + rewrite get_record_other by exact N. reflexivity.
Qed.

End MetricsFacts.

(** ** Column lines, and the ends of the pipeline *)

Section Endings.
Import DatabaseSchemaManager LocalLLMClient QueryExecutor OfflineRAGAgent Aux.

Lemma strip_fixed_head (s : string) c r :
  PyStr.strip s = s -> s = String c r -> PyStr.isspace_char c = false.
Proof.
  intros Hs E. unfold PyStr.strip in Hs.
  pose proof (lstrip_by_head PyStr.isspace_char s) as H1.
  destruct (PyStr.lstrip_by PyStr.isspace_char s) as [|d t].
  - rewrite E in Hs. discriminate Hs.
  - destruct (rstrip_by_head PyStr.isspace_char d t H1) as [r' Hr].
    rewrite Hr, E in Hs. injection Hs as -> _. exact H1.
Qed.

Lemma rstrip_by_app_all (p : ascii -> bool) (a b : string) :
  PyStr.forallb p b = true -> PyStr.rstrip_by p (a +:+ b) = PyStr.rstrip_by p a.
Proof.
  intros Hb.
  assert (PyStr.rstrip_by p b = "") as Hnil.
  { induction b as [|c b IH]; [reflexivity|]. simpl in Hb.
    apply andb_true_iff in Hb as [Hc Hb]. simpl. rewrite (IH Hb), Hc. reflexivity. }
  induction a as [|c a IH].
  - rewrite append_nil. exact Hnil.
  - rewrite append_cons. simpl. rewrite IH. reflexivity.
Qed.

Lemma strip_of_trimmed_start (c : ascii) (r : string) :
  PyStr.isspace_char c = false ->
  PyStr.strip (String c r) = PyStr.rstrip_by PyStr.isspace_char (String c r).
Proof. intros H. unfold PyStr.strip. cbn [PyStr.lstrip_by]. rewrite H. reflexivity. Qed.

(** X9: for a column whose name is not empty and whose name and type carry
    no white space around them, the rendered definition is the name, the
    type and the flags [PK] and [NN] that are set, separated by single
    blanks where the f-string puts them; without a flag the blank after the
    type is trimmed away, and without flag and type only the name is left. *)
Theorem column_def_shape (col : column) :
  col_name col <> "" ->
  PyStr.strip (col_name col) = col_name col ->
  PyStr.strip (col_type col) = col_type col ->
  column_def col =
  match is_primary_key col, not_null col with
  | true, true => col_name col +:+ " " +:+ col_type col +:+ " PK NN"
  | true, false => col_name col +:+ " " +:+ col_type col +:+ " PK"
  | false, true => col_name col +:+ " " +:+ col_type col +:+ " NN"
  | false, false =>
      if PyStr.is_empty (col_type col) then col_name col
      else col_name col +:+ " " +:+ col_type col
  end.
Proof.
  intros Hne Hn Ht. unfold column_def.
  destruct (col_name col) as [|c n] eqn:En; [congruence|]. rewrite <- En in *.
  pose proof (strip_fixed_head _ _ _ Hn En) as Hc.
  assert (forall rest, PyStr.strip (col_name col +:+ rest)
                       = PyStr.rstrip_by PyStr.isspace_char (col_name col +:+ rest)) as Hl.
  { intros rest. rewrite En, append_cons. apply strip_of_trimmed_start, Hc. }
  rewrite Hl.
  assert (PyStr.rstrip_by PyStr.isspace_char (col_name col) = col_name col) as Hrn
    by (apply rstrip_by_fixed, strip_fixed_end, Hn).
  assert (PyStr.rstrip_by PyStr.isspace_char (col_type col) = col_type col) as Hrt
    by (apply rstrip_by_fixed, strip_fixed_end, Ht).
  destruct (is_primary_key col), (not_null col); cbn [app join].
  - change (" " +:+ "PK" +:+ " " +:+ "NN") with " PK NN".
    repeat (apply rstrip_by_app; [|repeat apply append_not_empty_r; discriminate]).
    reflexivity.
  - change (" " +:+ "PK") with " PK".
    repeat (apply rstrip_by_app; [|repeat apply append_not_empty_r; discriminate]).
    reflexivity.
  - change (" " +:+ "NN") with " NN".
    repeat (apply rstrip_by_app; [|repeat apply append_not_empty_r; discriminate]).
    reflexivity.
  - change (" " +:+ "") with " ".
    destruct (col_type col) as [|d t] eqn:Et.
    + rewrite append_nil. change (" " +:+ " ") with "  ".
      rewrite rstrip_by_app_all by reflexivity. exact Hrn.
    + rewrite <- Et in *.
      assert (col_type col <> "") as Htne by (rewrite Et; discriminate).
      rewrite (is_empty_false _ Htne).
      apply rstrip_by_app; [|apply append_not_empty_r, Htne].
      apply rstrip_by_app; [|exact Htne].
      rewrite rstrip_by_app_all by reflexivity. exact Hrt.
Qed.

Lemma column_def_shape_witness :
  column_def {| col_name := "id"; col_type := "INTEGER"; is_primary_key := true;
                not_null := false; col_default := None |}
  = "id" +:+ " " +:+ "INTEGER" +:+ " PK".
Proof.
  apply (column_def_shape {| col_name := "id"; col_type := "INTEGER";
                             is_primary_key := true; not_null := false;
                             col_default := None |});
    [discriminate | reflexivity | reflexivity].
Defined.

(** X22: when the store returns rows for the generated statement and pandas
    formats them, the response is the [success] response: the formatter's
    message, the question, the statement, the records, the column names,
    the summary and the metrics entry. *)
Theorem success_response a (q s : string) rows cols (df : frame) :
  QueryValidator.validate_query q = Ok true ->
  fst (readiness a) = true ->
  outcome (generate_query a (snd (readiness a)) q) = Ok s ->
  store (backend_of a) s = Ok (rows, cols) ->
  dataframe (backend_of a) rows cols = Ok df ->
  outcome (process_query a q) =
  Ok {| status := "success";
        message := "Query executed successfully";
        user_query := q;
        sql := Some s;
        results := Some (Results (Records (frame_records df)));
        columns := Some (frame_columns df);
        summary := Some (Some (frame_summary df));
        metrics := Some ["processing_time"] |}.
Proof.
  intros Hv Hr G Hs Hd. rewrite (process_query_after_generation a q s Hv Hr G).
  unfold execute_query. rewrite outcome_try, outcome_bind. cbn [outcome emit].
  rewrite outcome_bind, outcome_lift, Hs. cbn [outcome mret io_ret fst snd].
  unfold format_results. cbn [exec_status exec_data exec_columns].
  change (String.eqb "success" "success") with true. cbn [negb].
  rewrite Hd. reflexivity.
Qed.

Lemma success_response_witness :
  outcome (process_query (demo_agent true fenced_completion) "List customers") =
  Ok {| status := "success";
        message := "Query executed successfully";
        user_query := "List customers";
        sql := Some "SELECT id FROM customers";
        results := Some (Results (Records [[("id", SqlText "c1")]]));
        columns := Some ["id"];
        summary := Some (Some {| row_count := 1; column_count := 1;
                                 column_types := [("id", "object")] |});
        metrics := Some ["processing_time"] |}.
Proof.
  apply (success_response (demo_agent true fenced_completion) "List customers"
           "SELECT id FROM customers" [[SqlText "c1"]] ["id"]
           {| frame_records := [[("id", SqlText "c1")]];
              frame_columns := ["id"];
              frame_summary := {| row_count := 1; column_count := 1;
                                  column_types := [("id", "object")] |} |});
    vm_compute; reflexivity.
Defined.

(** The client that [process_query] hands on is loaded once the wait
    succeeded, and keeps the model of the agent's client. *)
Lemma readiness_client a :
  fst (readiness a) = true ->
  is_loaded (snd (readiness a)) = true /\
  tokenize (snd (readiness a)) = tokenize (llm_client a) /\
  detokenize (snd (readiness a)) = detokenize (llm_client a) /\
  llm (snd (readiness a)) = llm (llm_client a).
Proof.
  unfold readiness, wait_for_model.
  destruct (is_loaded (llm_client a)) eqn:L; simpl; [auto|].
  intros ->. auto.
Qed.

Lemma bind_lift_ok {A B} (x : A) (f : A -> io B) : lift (Ok x) ≫= f = f x.
Proof. unfold mbind, io_bind, lift. cbn [outcome log]. destruct (f x). reflexivity. Qed.

(** X19: when the model answers and the validator rejects what is
    extracted from its completion, the response is an [error] that quotes
    the validator's reason behind the prefixes of the query processor and of
    the catch-all clause; the model has been called once and the store not
    at all. *)
Theorem rejected_completion_reported a (q : string) sch encoded p (text reason : string) :
  q <> "" ->
  QueryValidator.validate_query q = Ok true ->
  fst (readiness a) = true ->
  get_schema a = Ok sch ->
  let prompt := QueryProcessor._create_sql_generation_prompt q (filter_relevant_tables sch q) in
  tokenize (llm_client a) prompt = Ok encoded ->
  truncated_prompt (llm_client a) prompt encoded = Ok p ->
  llm (llm_client a) (instruction_template prompt) = Ok text ->
  QueryProcessor.validate_sql (QueryProcessor._parse_sql (PyStr.strip text))
    = Ok (false, reason) ->
  process_query a q =
  IO [LlmCall (instruction_template prompt) max_response_tokens stop_sequences]
     (Ok (brief "error"
            ("An unexpected error occurred: Failed to process query: Invalid SQL generated: "
               +:+ reason) q)).
Proof.
  intros Hq Hv Hr Hsch prompt Htok Htrunc Hllm Hval.
  destruct (readiness_client a Hr) as (Hload & Ht & Hd & Hl).
  assert (generate_sql (snd (readiness a)) prompt
          = IO [LlmCall (instruction_template prompt) max_response_tokens stop_sequences]
               (Ok (PyStr.strip text))) as Hgen.
  { unfold generate_sql, truncated_prompt. rewrite Hload, Ht, Hd, Hl, Htok. cbn [negb andb].
    unfold truncated_prompt in Htrunc. io_unfold. rewrite Htrunc. simpl. rewrite Hllm.
    reflexivity. }
  assert (generate_query a (snd (readiness a)) q
          = IO [LlmCall (instruction_template prompt) max_response_tokens stop_sequences]
               (raise QueryProcessingError
                  ("Failed to process query: Invalid SQL generated: " +:+ reason))) as Hgq.
  { unfold generate_query. rewrite (is_empty_false _ Hq), Hsch, bind_lift_ok.
    change (QueryProcessor._create_sql_generation_prompt q (filter_relevant_tables sch q))
      with prompt.
    rewrite Hgen. unfold try_io, mbind, io_bind. cbn [outcome log lift].
    rewrite Hval. reflexivity. }
  unfold process_query. rewrite process_query_try_start, Hv, Hr, Hgq. reflexivity.
Qed.

Lemma rejected_completion_reported_witness :
  process_query (demo_agent true "UPDATE customers SET country = 'FR'")
    "Remove Mobile to Salesforce from customers" =
  IO [LlmCall (instruction_template
                 (QueryProcessor._create_sql_generation_prompt
                    "Remove Mobile to Salesforce from customers"
                    (filter_relevant_tables demo_schema
                       "Remove Mobile to Salesforce from customers")))
        max_response_tokens stop_sequences]
     (Ok (brief "error"
            ("An unexpected error occurred: Failed to process query: Invalid SQL generated: "
               +:+ "Potential SQL injection detected: UPDATE\s+.*\s+SET")
            "Remove Mobile to Salesforce from customers")).
Proof.
  eapply (rejected_completion_reported
            (demo_agent true "UPDATE customers SET country = 'FR'")
            "Remove Mobile to Salesforce from customers" demo_schema);
    try (vm_compute; reflexivity).
  discriminate.
Defined.

End Endings.
